(** * Colobot object manager: registry and radar

    A shallow embedding of [src/object/object_manager.cpp] (class
    [CObjectManager]) and the properties of it that the design document
    states.

    - the registry [m_objects] is declared in object/object_manager.h,
      which is not among the sources; by the operations used on it ([find],
      [count], [operator[]], [erase] at an iterator, [begin], [clear]) it is
      an associative container with unique [int] keys and owning slots
      ([std::unique_ptr<CObject>]), taken to be a [std::map]. It is a
      key-ordered association list here, because [begin()] and the
      iteration order of [Radar] are observable;
    - an owning slot is [option CObject]: [None] is the empty slot left by
      [reset()];
    - [float] is IEEE-754 binary32, through the Standard Library's
      [SpecFloat] at precision 24 and exponent bound 128;
    - [int] values are integers of [Z]; the one arithmetic operation on them,
      [m_nextId++], has its 32-bit wrap-around written out;
    - [assert] and [throw] are outcomes of [CreateObject];
    - a [CObject*] is the object it leads to, and two references are told
      apart by the identifier of their objects: the pointer test of the
      source for a requester that the registry owns (see [same_object]). *)

From Stdlib Require Import ZArith List Bool Lia String Sorted.
From Stdlib Require Import Floats.SpecFloat.
Import ListNotations.
Local Open Scope Z_scope.

(** ** Machine numbers *)

Module Int32.
Definition INT_MIN : Z := - 2 ^ 31.
Definition INT_MAX : Z := 2 ^ 31 - 1.

Definition in_range (z : Z) : Prop := INT_MIN <= z <= INT_MAX.

(** Two's complement reduction of an integer to [int]. *)
Definition wrap (z : Z) : Z := (z + 2 ^ 31) mod 2 ^ 32 - 2 ^ 31.

(** [int] to [unsigned int] and back, as at the call of [GetObjectById]
    and at the use of its argument as a key. *)
Definition to_unsigned (z : Z) : Z := z mod 2 ^ 32.
Definition of_unsigned (u : Z) : Z := wrap u.
End Int32.

Module F32.
Definition float := spec_float.
Definition prec : Z := 24.
Definition emax : Z := 128.

Definition add : float -> float -> float := SFadd prec emax.
Definition sub : float -> float -> float := SFsub prec emax.
Definition mul : float -> float -> float := SFmul prec emax.
Definition div : float -> float -> float := SFdiv prec emax.
Definition sqrt : float -> float := SFsqrt prec emax.

(** The comparisons of C++: false as soon as an operand is a NaN. *)
Definition lt (a b : float) : bool := SFltb a b.
Definition gt (a b : float) : bool := SFltb b a.
Definition ge (a b : float) : bool := SFleb b a.

(** The literal [m * 2^e], rounded to nearest. *)
Definition lit (m e : Z) : float := binary_normalize prec emax m e false.
Definition of_Z (z : Z) : float := lit z 0.

Definition zero : float := S754_zero false.
Definition two : float := Eval cbv in of_Z 2.
Definition sentinel_nearest : float := Eval cbv in of_Z 100000.
End F32.
Import F32.

(** ** Data *)

(** The members of [enum ObjectType] (object/object_type.h) that the
    manager names, and [OBJECT_OTHER] for the rest of the enumeration. *)
Inductive ObjectType : Type :=
| OBJECT_NULL
| OBJECT_RUINmobilew1 | OBJECT_RUINmobilew2
| OBJECT_RUINmobilet1 | OBJECT_RUINmobilet2
| OBJECT_RUINmobiler1 | OBJECT_RUINmobiler2
| OBJECT_SCRAP1 | OBJECT_SCRAP2 | OBJECT_SCRAP3 | OBJECT_SCRAP4 | OBJECT_SCRAP5
| OBJECT_BARRIER1 | OBJECT_BARRIER2 | OBJECT_BARRIER3
| OBJECT_TOTO
| OBJECT_CONTROLLER
| OBJECT_OTHER (code : nat).

Definition ObjectType_eq_dec (a b : ObjectType) : {a = b} + {a <> b}.
Proof. decide equality. apply Nat.eq_dec. Defined.

Definition ObjectType_eqb (a b : ObjectType) : bool :=
  if ObjectType_eq_dec a b then true else false.

Lemma ObjectType_eqb_eq a b : ObjectType_eqb a b = true <-> a = b.
Proof.
  unfold ObjectType_eqb. destruct (ObjectType_eq_dec a b); split; congruence.
Qed.

Lemma ObjectType_eqb_refl a : ObjectType_eqb a a = true.
Proof. apply ObjectType_eqb_eq. reflexivity. Qed.

(** [Math::Vector]; [Math::Vector()] is the origin. *)
Record Vector : Type := mkVector { vx : float; vy : float; vz : float }.

Definition Vector_origin : Vector := mkVector zero zero zero.

(** The physics capability: only its landed flag is read. *)
Record CPhysics : Type := mkPhysics { GetLand : bool }.

(** What the manager observes of a [CObject]. [IsOldObject] is the outcome
    of [dynamic_cast<COldObject*>], [IsObjectBeingTransported] that of the
    free function of the same name, [GetPhysics] is [None] for a null
    physics pointer. *)
Record CObject : Type := mkObject {
  GetID : Z;
  GetType : ObjectType;
  GetTeam : Z;
  GetActive : bool;
  GetProxyActivate : bool;
  IsObjectBeingTransported : bool;
  GetPosition : Vector;
  GetRotationY : float;
  GetPhysics : option CPhysics;
  IsOldObject : bool
}.

(** A [CObject*]: [None] is [nullptr]. *)
Abbreviation CObjectPtr := (option CObject).
Definition nullptr : CObjectPtr := None.

(** Pointer equality, [pObj == pThis] at line 279. References are
    compared by the identifier of the object they lead to. This is the
    pointer test of the source exactly when the registry keeps every
    object under its own identifier and the requester, if there is one,
    is an object of the registry ([registry_ok] and [requester_held]
    below; [same_object_exact] is the proof): the identifier of the
    requester then names one slot, its own. A requester from outside the
    registry that carries the identifier of an object inside it is beyond
    that: the source would go on to examine the inside object, this test
    skips it. The properties that depend on the difference assume the two
    conditions. *)
Definition same_object (p q : CObjectPtr) : bool :=
  match p, q with
  | None, None => true
  | Some a, Some b => GetID a =? GetID b
  | _, _ => false
  end.

Record ObjectCreateParams : Type := mkParams {
  p_pos : Vector;
  p_angle : float;
  p_type : ObjectType;
  p_power : float;
  p_zoom : float;
  p_height : float;
  p_trainer : bool;
  p_toy : bool;
  p_option : Z;
  p_team : Z;
  p_id : Z
}.

Definition set_id (params : ObjectCreateParams) (id : Z) : ObjectCreateParams :=
  mkParams (p_pos params) (p_angle params) (p_type params) (p_power params)
           (p_zoom params) (p_height params) (p_trainer params) (p_toy params)
           (p_option params) (p_team params) id.

Record CObjectCreateException : Type := mkException {
  exc_what : string;
  exc_type : ObjectType
}.

(** ** The map of owning slots *)

Abbreviation slot := (option CObject).
Definition CObjectMap : Type := list (Z * slot).

Module ObjMap.
(** [m.find(k)]: the slot under [k], [None] for [m.end()]. *)
Fixpoint find (k : Z) (m : CObjectMap) : option slot :=
  match m with
  | [] => None
  | (k', v) :: m' => if k' =? k then Some v else find k m'
  end.

(** [m[k] = v]: overwrite in place, or insert at the key's rank. *)
Fixpoint assign (k : Z) (v : slot) (m : CObjectMap) : CObjectMap :=
  match m with
  | [] => [(k, v)]
  | (k', v') :: m' =>
      if k <? k' then (k, v) :: (k', v') :: m'
      else if k =? k' then (k, v) :: m'
      else (k', v') :: assign k v m'
  end.

(** [it->second.reset()] at [it = m.find(k)]: the slot is emptied, the key
    stays where it is. *)
Fixpoint reset (k : Z) (m : CObjectMap) : CObjectMap :=
  match m with
  | [] => []
  | (k', v) :: m' => if k' =? k then (k', None) :: m' else (k', v) :: reset k m'
  end.

(** [m.erase(k)], the map without the key. *)
Fixpoint erase (k : Z) (m : CObjectMap) : CObjectMap :=
  match m with
  | [] => []
  | (k', v) :: m' => if k' =? k then erase k m' else (k', v) :: erase k m'
  end.

Definition keys (m : CObjectMap) : list Z := map fst m.

(** The objects of the non-empty slots, in iteration order. *)
Fixpoint live (m : CObjectMap) : list CObject :=
  match m with
  | [] => []
  | (_, Some o) :: m' => o :: live m'
  | (_, None) :: m' => live m'
  end.

(** The keys of the empty slots. *)
Fixpoint tombstones (m : CObjectMap) : list Z :=
  match m with
  | [] => []
  | (k, None) :: m' => k :: tombstones m'
  | (_, Some _) :: m' => tombstones m'
  end.
End ObjMap.

(** ** The manager *)

(** The data members of [CObjectManager]. The factory [m_objectFactory] is
    a parameter of [CreateObject] below. *)
Record CObjectManager : Type := mkManager {
  m_objects : CObjectMap;
  m_nextId : Z;
  m_shouldCleanRemovedObjects : bool
}.

(** The constructor's initialisers. *)
Definition CObjectManager_new : CObjectManager := mkManager [] 0 false.

(** How a call that can [assert] or [throw] ends. *)
Inductive outcome (A : Type) : Type :=
| Returned (a : A)
| Thrown (e : CObjectCreateException)
| AssertionFailed.
Arguments Returned {A} a.
Arguments Thrown {A} e.
Arguments AssertionFailed {A}.

(** [DeleteObject(instance)], lines 56-74. The teardown of a [COldObject]
    (line 63) acts on the very object that line 68 releases, so nothing of
    it is left in the registry; [instance] is non-null by the type. *)
Definition DeleteObject (instance : CObject) (st : CObjectManager)
  : bool * CObjectManager :=
  match ObjMap.find (GetID instance) (m_objects st) with
  | Some _ =>
      (true,
       mkManager (ObjMap.reset (GetID instance) (m_objects st))
                 (m_nextId st)
                 true)
  | None => (false, st)
  end.

(** [CleanRemovedObjects()], lines 76-86: [begin()] alone is inspected. *)
Definition CleanRemovedObjects (st : CObjectManager) : CObjectManager :=
  mkManager
    (match m_objects st with
     | [] => []
     | (k, None) :: rest => rest
     | (k, Some o) :: rest => (k, Some o) :: rest
     end)
    (m_nextId st)
    false.

(** [n] calls in a row. *)
Fixpoint CleanRemovedObjects_times (n : nat) (st : CObjectManager)
  : CObjectManager :=
  match n with
  | O => st
  | S n' => CleanRemovedObjects_times n' (CleanRemovedObjects st)
  end.

(** [DeleteAllObjects()], lines 88-104; the forced teardown of line 97 acts
    on objects that line 101 destroys. *)
Definition DeleteAllObjects (st : CObjectManager) : CObjectManager :=
  mkManager [] 0 (m_shouldCleanRemovedObjects st).

(** [GetObjectById(id)], lines 106-110. [id] is an [unsigned int]; the map
    converts it to its [int] key. *)
Definition GetObjectById (id : Z) (st : CObjectManager) : CObjectPtr :=
  match ObjMap.find (Int32.of_unsigned id) (m_objects st) with
  | None => nullptr
  | Some s => s
  end.

(** The call [GetObjectById(e->GetID())]. *)
Definition GetObjectById_of (e : CObject) (st : CObjectManager) : CObjectPtr :=
  GetObjectById (Int32.to_unsigned (GetID e)) st.

(** [GetObjectByRank(id)], lines 112-118. *)
Definition GetObjectByRank (id : nat) (st : CObjectManager) : CObjectPtr :=
  match nth_error (m_objects st) id with
  | None => nullptr
  | Some (_, s) => s
  end.

(** Modelled from the spec: [GetAllObjects()] is declared in
    object/object_manager.h, which is not among the sources; by the design
    document it "produces the current non-owning reference list (skipping
    empty slots)". *)
Definition GetAllObjects (st : CObjectManager) : list CObject :=
  ObjMap.live (m_objects st).

(** [GetObjectsOfTeam(team)], lines 170-181. *)
Definition GetObjectsOfTeam (team : Z) (st : CObjectManager) : list CObject :=
  filter (fun object => GetTeam object =? team) (GetAllObjects st).

(** The loop of [TeamExists], lines 187-194. *)
Fixpoint TeamExists_loop (team : Z) (objects : list CObject) : bool :=
  match objects with
  | [] => false
  | object :: rest =>
      if negb (GetActive object) then TeamExists_loop team rest
      else if GetTeam object =? team then true
      else TeamExists_loop team rest
  end.

(** [TeamExists(team)], lines 183-196. *)
Definition TeamExists (team : Z) (st : CObjectManager) : bool :=
  if team =? 0 then true
  else TeamExists_loop team (GetAllObjects st).

Section Creation.
(** [m_objectFactory->CreateObject(params)]: [None] is the null
    [unique_ptr]. *)
Variable CObjectFactory_CreateObject : ObjectCreateParams -> option CObject.

Definition creation_failure_message : string :=
  "Something went wrong in CObjectFactory"%string.

(** [CreateObject(params)], lines 120-140. The state that comes with
    [Thrown] or [AssertionFailed] is the one the manager is left in. *)
Definition CreateObject (params : ObjectCreateParams) (st : CObjectManager)
  : outcome CObject * CObjectManager :=
  let '(params, st) :=
    if p_id params <? 0
    then (set_id params (m_nextId st),
          mkManager (m_objects st)
                    (Int32.wrap (m_nextId st + 1))
                    (m_shouldCleanRemovedObjects st))
    else (params, st) in
  match ObjMap.find (p_id params) (m_objects st) with
  | Some _ => (AssertionFailed, st)
  | None =>
      match CObjectFactory_CreateObject params with
      | None =>
          (Thrown (mkException creation_failure_message (p_type params)), st)
      | Some object =>
          (Returned object,
           mkManager (ObjMap.assign (p_id params) (Some object) (m_objects st))
                     (m_nextId st)
                     (m_shouldCleanRemovedObjects st))
      end
  end.

(** The overload of lines 142-168. *)
Definition CreateObject_args (pos : Vector) (angle : float) (type : ObjectType)
    (power zoom height : float) (trainer toy : bool) (option team id : Z)
    (st : CObjectManager) : outcome CObject * CObjectManager :=
  CreateObject
    (mkParams pos angle type power zoom height trainer toy option team id) st.
End Creation.

(** ** Radar *)

(** Modelled from the spec: [Math::PI] (math/const.h) is not among the
    sources; the cone is measured against "2 pi", so [PI] is the binary32
    value nearest to pi, 13176795 * 2^-22. *)
Definition PI : float := Eval cbv in lit 13176795 (-22).

(** Modelled from the spec: [Math::DistanceProjected] (math/all.h) is not
    among the sources; the design document has the positions projected "onto
    the horizontal plane" and their "planar distance" computed. *)
Definition DistanceProjected (a b : Vector) : float :=
  sqrt (add (mul (sub (vx a) (vx b)) (sub (vx a) (vx b)))
            (mul (sub (vz a) (vz b)) (sub (vz a) (vz b)))).

(** Lines 291-312: the families that collapse under [cbotTypes]. *)
Definition cbot_base_type (oType : ObjectType) : ObjectType :=
  let oType :=
    match oType with
    | OBJECT_RUINmobilew2 | OBJECT_RUINmobilet1 | OBJECT_RUINmobilet2
    | OBJECT_RUINmobiler1 | OBJECT_RUINmobiler2 => OBJECT_RUINmobilew1
    | _ => oType
    end in
  let oType :=
    match oType with
    | OBJECT_SCRAP2 | OBJECT_SCRAP3 | OBJECT_SCRAP4 | OBJECT_SCRAP5 =>
        OBJECT_SCRAP1
    | _ => oType
    end in
  match oType with
  | OBJECT_BARRIER2 | OBJECT_BARRIER3 => OBJECT_BARRIER1
  | _ => oType
  end.

(** Lines 286-314: the category a candidate is compared by. *)
Definition Radar_oType (cbotTypes : bool) (pObj : CObject) : ObjectType :=
  if cbotTypes then cbot_base_type (GetType pObj) else GetType pObj.

(** [std::find(type.begin(), type.end(), oType) != type.end()]. *)
Definition type_listed (type : list ObjectType) (oType : ObjectType) : bool :=
  existsb (ObjectType_eqb oType) type.

(** The ruin family of lines 291-295, with its representative. *)
Definition is_ruin (oType : ObjectType) : bool :=
  match oType with
  | OBJECT_RUINmobilew1 | OBJECT_RUINmobilew2
  | OBJECT_RUINmobilet1 | OBJECT_RUINmobilet2
  | OBJECT_RUINmobiler1 | OBJECT_RUINmobiler2 => true
  | _ => false
  end.

(** The two categories of line 318. *)
Definition is_system_type (oType : ObjectType) : bool :=
  match oType with
  | OBJECT_TOTO | OBJECT_CONTROLLER => true
  | _ => false
  end.

(** Lines 316 and 318: [true] when neither [continue] is taken. *)
Definition Radar_type_filter (type : list ObjectType) (oType : ObjectType)
  : bool :=
  if negb (type_listed type oType) && (0 <? Z.of_nat (List.length type))
  then false
  else if is_system_type oType && (Z.of_nat (List.length type) =? 0)
  then false
  else true.

Section Radar.
(** Declared outside the sources: the world unit [g_unit], the bits of
    [enum RadarFilter], and the angle routines of math/all.h. *)
Variable g_unit : float.
Variables FILTER_NONE FILTER_ONLYLANDING FILTER_ONLYFLYING : Z.
Variables FILTER_FRIENDLY FILTER_ENEMY FILTER_NEUTRAL : Z.
Variable NormAngle : float -> float.
Variable RotateAngle : float -> float -> float.
Variable TestAngle : float -> float -> float -> bool.

Section Query.
(** The arguments of the overload of line 254. *)
Variable pThis : CObjectPtr.
Variable thisPosition : Vector.
Variable thisAngle : float.
Variable type : list ObjectType.
Variables angle focus minDist maxDist : float.
Variable furthest : bool.
Variable filter : Z.
Variable cbotTypes : bool.

(** Lines 262-271. *)
Definition Radar_minDist : float := mul minDist g_unit.
Definition Radar_maxDist : float := mul maxDist g_unit.
Definition Radar_iPos : Vector := thisPosition.
Definition Radar_iAngle : float := NormAngle (add thisAngle angle).
Definition filter_team : Z := Z.land filter 255.
Definition filter_flying : Z :=
  Z.land filter (Z.lor FILTER_ONLYLANDING FILTER_ONLYFLYING).
Definition filter_enemy : Z :=
  Z.land filter (Z.lor (Z.lor FILTER_FRIENDLY FILTER_ENEMY) FILTER_NEUTRAL).

(** Lines 273-275. *)
Definition Radar_init : float * CObjectPtr :=
  (if negb furthest then sentinel_nearest else zero, nullptr).

(** Lines 320-329: [true] when neither [continue] is taken. *)
Definition Radar_flying_filter (pObj : CObject) : bool :=
  if (filter_flying =? FILTER_ONLYLANDING)
     && match GetPhysics pObj with
        | Some physics => negb (GetLand physics)
        | None => false
        end
  then false
  else if (filter_flying =? FILTER_ONLYFLYING)
          && match GetPhysics pObj with
             | Some physics => GetLand physics
             | None => false
             end
  then false
  else true.

(** Lines 331-332. *)
Definition Radar_team_filter (pObj : CObject) : bool :=
  negb (negb (filter_team =? 0) && negb (GetTeam pObj =? filter_team)).

(** Lines 334-341. *)
Definition Radar_enemy_filter (pObj : CObject) : bool :=
  match pThis with
  | None => true
  | Some this =>
      let enemy := FILTER_NONE in
      let enemy :=
        if GetTeam pObj =? 0 then Z.lor enemy FILTER_NEUTRAL else enemy in
      let enemy :=
        if negb (GetTeam pObj =? 0) && (GetTeam pObj =? GetTeam this)
        then Z.lor enemy FILTER_FRIENDLY else enemy in
      let enemy :=
        if negb (GetTeam pObj =? 0) && negb (GetTeam pObj =? GetTeam this)
        then Z.lor enemy FILTER_ENEMY else enemy in
      negb (negb (filter_enemy =? 0) && (Z.land filter_enemy enemy =? 0))
  end.

(** Lines 343-345: the distance, when it is inside the band. *)
Definition Radar_d (pObj : CObject) : float :=
  DistanceProjected Radar_iPos (GetPosition pObj).

Definition Radar_distance_filter (pObj : CObject) : bool :=
  negb (lt (Radar_d pObj) Radar_minDist || gt (Radar_d pObj) Radar_maxDist).

(** Lines 347-348. *)
Definition Radar_angle_filter (pObj : CObject) : bool :=
  let oPos := GetPosition pObj in
  let a := RotateAngle (sub (vx oPos) (vx Radar_iPos))
                       (sub (vz Radar_iPos) (vz oPos)) in
  TestAngle a (sub Radar_iAngle (div focus two))
              (add Radar_iAngle (div focus two))
  || ge focus (mul PI two).

(** Lines 278-348 for one slot: the object when no [continue] is taken
    and the test of line 348 holds. *)
Definition Radar_candidate (it : Z * slot) : option CObject :=
  let pObj := snd it in
  if same_object pObj pThis then None
  else match pObj with
  | None => None
  | Some pObj =>
      if IsObjectBeingTransported pObj then None
      else if negb (GetActive pObj) then None
      else if GetProxyActivate pObj then None
      else if negb (Radar_type_filter type (Radar_oType cbotTypes pObj))
      then None
      else if negb (Radar_flying_filter pObj) then None
      else if negb (Radar_team_filter pObj) then None
      else if negb (Radar_enemy_filter pObj) then None
      else if negb (Radar_distance_filter pObj) then None
      else if Radar_angle_filter pObj then Some pObj
      else None
  end.

(** Lines 350-355. *)
Definition Radar_score (pObj : CObject) (acc : float * CObjectPtr)
  : float * CObjectPtr :=
  let d := Radar_d pObj in
  let best := fst acc in
  if (negb furthest && lt d best) || (furthest && gt d best)
  then (d, Some pObj)
  else acc.

(** One turn of the loop of line 276. *)
Definition Radar_step (acc : float * CObjectPtr) (it : Z * slot)
  : float * CObjectPtr :=
  match Radar_candidate it with
  | Some pObj => Radar_score pObj acc
  | None => acc
  end.

Definition Radar_loop (objects : CObjectMap) : float * CObjectPtr :=
  fold_left Radar_step objects Radar_init.

(** [Radar], lines 254-360. *)
Definition Radar (st : CObjectManager) : CObjectPtr :=
  snd (Radar_loop (m_objects st)).
End Query.

(** The overload of lines 246-252. *)
Definition Radar_at_type (pThis : CObjectPtr) (thisPosition : Vector)
    (thisAngle : float) (type : ObjectType)
    (angle focus minDist maxDist : float) (furthest : bool) (filter : Z)
    (cbotTypes : bool) (st : CObjectManager) : CObjectPtr :=
  let types := if ObjectType_eqb type OBJECT_NULL then [] else [type] in
  Radar pThis thisPosition thisAngle types angle focus minDist maxDist
        furthest filter cbotTypes st.

(** The overload of lines 228-244. *)
Definition Radar_from (pThis : CObjectPtr) (type : list ObjectType)
    (angle focus minDist maxDist : float) (furthest : bool) (filter : Z)
    (cbotTypes : bool) (st : CObjectManager) : CObjectPtr :=
  let '(iPos, iAngle) :=
    match pThis with
    | Some this => (GetPosition this, NormAngle (GetRotationY this))
    | None => (Vector_origin, zero)
    end in
  Radar pThis iPos iAngle type angle focus minDist maxDist
        furthest filter cbotTypes st.

(** The overload of lines 220-226. *)
Definition Radar_from_type (pThis : CObjectPtr) (type : ObjectType)
    (angle focus minDist maxDist : float) (furthest : bool) (filter : Z)
    (cbotTypes : bool) (st : CObjectManager) : CObjectPtr :=
  let types := if ObjectType_eqb type OBJECT_NULL then [] else [type] in
  Radar_from pThis types angle focus minDist maxDist furthest filter
             cbotTypes st.

(** [FindNearest], lines 367-370 and 377-380. *)
Definition FindNearest (pThis : CObjectPtr) (type : list ObjectType)
    (maxDist : float) (cbotTypes : bool) (st : CObjectManager) : CObjectPtr :=
  Radar_from pThis type zero (mul PI two) zero maxDist false FILTER_NONE
             cbotTypes st.

(** [FindNearest], lines 362-365 and 372-375. *)
Definition FindNearest_type (pThis : CObjectPtr) (type : ObjectType)
    (maxDist : float) (cbotTypes : bool) (st : CObjectManager) : CObjectPtr :=
  Radar_from_type pThis type zero (mul PI two) zero maxDist false FILTER_NONE
                  cbotTypes st.

Definition FindNearest_at_type (pThis : CObjectPtr) (thisPosition : Vector)
    (type : ObjectType) (maxDist : float) (cbotTypes : bool)
    (st : CObjectManager) : CObjectPtr :=
  Radar_at_type pThis thisPosition zero type zero (mul PI two) zero maxDist
                false FILTER_NONE cbotTypes st.

Definition FindNearest_at (pThis : CObjectPtr) (thisPosition : Vector)
    (type : list ObjectType) (maxDist : float) (cbotTypes : bool)
    (st : CObjectManager) : CObjectPtr :=
  Radar pThis thisPosition zero type zero (mul PI two) zero maxDist false
        FILTER_NONE cbotTypes st.
End Radar.

(** The comparison of lines 350-351, by mode. *)
Definition better (furthest : bool) (a b : float) : bool :=
  if furthest then gt a b else lt a b.

(** What the loop of [Radar] keeps true of its running best [acc] and of
    the slots [seen] it has gone through, [dist] being the distance of an
    object and [candidate] the selection of lines 278-348: without a best
    object the best distance is the sentinel; the best object has the best
    distance, which is strictly on the good side of the sentinel; and no
    candidate seen is strictly on the good side of the best distance. *)
Definition Radar_best_so_far (furthest : bool) (dist : CObject -> float)
    (candidate : Z * slot -> option CObject)
    (seen : CObjectMap) (acc : float * CObjectPtr) : Prop :=
  let sentinel := if furthest then zero else sentinel_nearest in
  (snd acc = None -> fst acc = sentinel) /\
  (forall r, snd acc = Some r ->
     fst acc = dist r /\ better furthest (dist r) sentinel = true) /\
  (forall it c, In it seen -> candidate it = Some c ->
     better furthest (dist c) (fst acc) = false).

(** ** Capabilities *)

Section Interfaces.
(** [enum class ObjectInterfaceType] and [CObject::Implements] are declared
    outside the sources. *)
Variable ObjectInterfaceType : Type.
Variable Implements : CObject -> ObjectInterfaceType -> bool.

(** The loop of [CountObjectsImplementing], lines 212-216; [count] is an
    [int]. *)
Fixpoint CountObjectsImplementing_loop (interface : ObjectInterfaceType)
    (objects : list CObject) (count : Z) : Z :=
  match objects with
  | [] => count
  | object :: rest =>
      CountObjectsImplementing_loop interface rest
        (if Implements object interface then Int32.wrap (count + 1)
         else count)
  end.

(** [CountObjectsImplementing(interface)], lines 209-218. *)
Definition CountObjectsImplementing (interface : ObjectInterfaceType)
    (st : CObjectManager) : Z :=
  CountObjectsImplementing_loop interface (GetAllObjects st) 0.
End Interfaces.

(** ** Sequences of calls *)

(** The calls that change the manager. *)
Inductive call : Type :=
| CallCreateObject (params : ObjectCreateParams)
| CallDeleteObject (instance : CObject)
| CallCleanRemovedObjects
| CallDeleteAllObjects.

(** The manager after one call, whatever the call returned. *)
Definition perform (factory : ObjectCreateParams -> option CObject)
    (st : CObjectManager) (c : call) : CObjectManager :=
  match c with
  | CallCreateObject params => snd (CreateObject factory params st)
  | CallDeleteObject instance => snd (DeleteObject instance st)
  | CallCleanRemovedObjects => CleanRemovedObjects st
  | CallDeleteAllObjects => DeleteAllObjects st
  end.

Definition perform_all (factory : ObjectCreateParams -> option CObject)
    (calls : list call) (st : CObjectManager) : CObjectManager :=
  fold_left (perform factory) calls st.

(** Every key is below the counter: what holds while identifiers come
    from the counter alone. *)
Definition keys_below_counter (st : CObjectManager) : Prop :=
  forall k, In k (ObjMap.keys (m_objects st)) -> k < m_nextId st.

(** ** Invariants of the registry *)

(** [std::map] keeps its keys in strictly increasing order. *)
Definition map_sorted (m : CObjectMap) : Prop :=
  StronglySorted Z.lt (ObjMap.keys m).

(** Every owned object sits under its own identifier. *)
Definition ids_agree (m : CObjectMap) : Prop :=
  forall k o, In (k, Some o) m -> GetID o = k.

Definition registry_ok (st : CObjectManager) : Prop :=
  map_sorted (m_objects st) /\ ids_agree (m_objects st).

(** The requester of a query, when there is one, is an object the registry
    owns. *)
Definition requester_held (pThis : CObjectPtr) (st : CObjectManager) : Prop :=
  match pThis with
  | None => True
  | Some this => In (GetID this, Some this) (m_objects st)
  end.

(** The key has an empty slot or none: what [GetObjectById] cannot tell
    apart. *)
Definition not_found_at (k : Z) (m : CObjectMap) : Prop :=
  ObjMap.find k m = Some None \/ ObjMap.find k m = None.

(** ** A sample world

    Closed instances of what the manager takes from outside, for the
    examples below: the world unit, the filter bits, a factory that refuses
    [OBJECT_NULL], and angle routines that never put a candidate inside a
    cone (so that only the full circle of line 348 lets one through). *)
Module Sample.
Definition g_unit : float := Eval cbv in of_Z 4.
Definition FILTER_NONE : Z := 0.
Definition FILTER_ONLYLANDING : Z := 256.
Definition FILTER_ONLYFLYING : Z := 512.
Definition FILTER_FRIENDLY : Z := 1024.
Definition FILTER_ENEMY : Z := 2048.
Definition FILTER_NEUTRAL : Z := 4096.
Definition NormAngle (a : float) : float := a.
Definition RotateAngle (x y : float) : float := zero.
Definition TestAngle (a min max : float) : bool := false.

(** An active object on the ground, at [(x, 0, z)]. *)
Definition object (id : Z) (type : ObjectType) (team : Z) (x z : float)
  : CObject :=
  mkObject id type team true false false (mkVector x zero z) zero None true.

Definition factory (params : ObjectCreateParams) : option CObject :=
  match p_type params with
  | OBJECT_NULL => None
  | type =>
      Some (mkObject (p_id params) type (p_team params) true false false
                     (p_pos params) (p_angle params) None true)
  end.

(** What [factory] makes of [params (OBJECT_OTHER 1) id]. *)
Definition factory_object (id : Z) : CObject :=
  mkObject id (OBJECT_OTHER 1) 0 true false false Vector_origin zero None true.

(** The registry after two creations and the deletion of the second object:
    slot 0 is owned, slot 1 is a tombstone. *)
Definition pending : CObjectManager :=
  mkManager [(0, Some (factory_object 0)); (1, None)] 2 true.

Definition params (type : ObjectType) (id : Z) : ObjectCreateParams :=
  mkParams Vector_origin zero type zero zero zero false false 0 0 id.

Definition Radar := Radar g_unit FILTER_NONE FILTER_ONLYLANDING
  FILTER_ONLYFLYING FILTER_FRIENDLY FILTER_ENEMY FILTER_NEUTRAL
  NormAngle RotateAngle TestAngle.

Definition Radar_candidate := Radar_candidate g_unit FILTER_NONE
  FILTER_ONLYLANDING FILTER_ONLYFLYING FILTER_FRIENDLY FILTER_ENEMY
  FILTER_NEUTRAL NormAngle RotateAngle TestAngle.

(** A cone wider than the full circle: 7 > 2 pi. *)
Definition full_circle : float := Eval cbv in of_Z 7.
Definition hundred : float := Eval cbv in of_Z 100.

Definition wreck1 : CObject := object 0 OBJECT_RUINmobilew1 0 hundred zero.
Definition wreck2 : CObject := object 0 OBJECT_RUINmobilew2 0 hundred zero.
Definition toto : CObject := object 0 OBJECT_TOTO 0 hundred zero.
Definition here : CObject := object 0 (OBJECT_OTHER 0) 0 zero zero.

Definition world (objects : CObjectMap) : CObjectManager :=
  mkManager objects (Z.of_nat (List.length objects)) false.
End Sample.

(** ** A scene for the radar

    Objects around a requester of team 1, all 100 away along x. *)
Module Scene.
Definition requester : CObject :=
  Sample.object 0 (OBJECT_OTHER 1) 1 zero zero.
Definition friend : CObject :=
  Sample.object 1 (OBJECT_OTHER 1) 1 Sample.hundred zero.
Definition foe : CObject :=
  Sample.object 2 (OBJECT_OTHER 1) 2 Sample.hundred zero.
Definition neutral : CObject :=
  Sample.object 3 (OBJECT_OTHER 1) 0 Sample.hundred zero.
(** A landed object with a physics, of team 0. *)
Definition lander : CObject :=
  mkObject 4 (OBJECT_OTHER 1) 0 true false false
           (mkVector Sample.hundred zero zero) zero
           (Some (mkPhysics true)) true.

Definition st : CObjectManager :=
  mkManager [(0, Some requester); (1, Some friend); (2, Some foe);
             (3, Some neutral); (4, Some lander)] 5 false.

(** The query of [requester] over the full circle, up to 100 units, in
    nearest mode, for any category. *)
Definition ask (filter : Z) : CObjectPtr :=
  Sample.Radar (Some requester) Vector_origin zero [] zero
    Sample.full_circle zero Sample.hundred false filter false st.
End Scene.

(** * Properties *)

(** ** Machine numbers *)

Lemma wrap_in_range z : Int32.in_range z -> Int32.wrap z = z.
Proof.
  unfold Int32.in_range, Int32.wrap, Int32.INT_MIN, Int32.INT_MAX. intros H.
  rewrite Z.mod_small; lia.
Qed.

Lemma of_to_unsigned z :
  Int32.in_range z -> Int32.of_unsigned (Int32.to_unsigned z) = z.
Proof.
  unfold Int32.in_range, Int32.of_unsigned, Int32.to_unsigned, Int32.wrap,
    Int32.INT_MIN, Int32.INT_MAX.
  intros H.
  rewrite Zplus_mod_idemp_l.
  rewrite Z.mod_small; lia.
Qed.

(** ** The map *)

Lemma find_In k s m : ObjMap.find k m = Some s -> In (k, s) m.
Proof.
  induction m as [|[k' v] m IH]; simpl; [discriminate|].
  destruct (Z.eqb_spec k' k) as [->|Hne]; intros H.
  - left. congruence.
  - right. auto.
Qed.

Lemma find_not_key k m : ~ In k (ObjMap.keys m) -> ObjMap.find k m = None.
Proof.
  induction m as [|[k' v] m IH]; simpl; [reflexivity|].
  intros H. destruct (Z.eqb_spec k' k) as [->|Hne].
  - exfalso. apply H. now left.
  - apply IH. intros Hin. apply H. now right.
Qed.

Lemma sorted_tail_find k v m :
  map_sorted ((k, v) :: m) -> ObjMap.find k m = None.
Proof.
  intros H. apply find_not_key. unfold map_sorted in H. simpl in H.
  apply StronglySorted_inv in H. destruct H as [_ Hall].
  rewrite Forall_forall in Hall. intros Hin. apply Hall in Hin. lia.
Qed.

Lemma sorted_tail k v m : map_sorted ((k, v) :: m) -> map_sorted m.
Proof.
  unfold map_sorted. simpl. intros H.
  apply StronglySorted_inv in H. tauto.
Qed.

Lemma In_sorted_find k s m :
  map_sorted m -> In (k, s) m -> ObjMap.find k m = Some s.
Proof.
  induction m as [|[k' v] m IH]; simpl; [tauto|].
  intros Hs [Heq|Hin].
  - inversion Heq; subst. now rewrite Z.eqb_refl.
  - destruct (Z.eqb_spec k' k) as [->|Hne].
    + pose proof (sorted_tail_find _ _ _ Hs) as Hnone.
      rewrite (IH (sorted_tail _ _ _ Hs) Hin) in Hnone. discriminate.
    + apply IH; eauto using sorted_tail.
Qed.

Lemma keys_reset k m : ObjMap.keys (ObjMap.reset k m) = ObjMap.keys m.
Proof.
  induction m as [|[k' v] m IH]; simpl; [reflexivity|].
  destruct (k' =? k); simpl; congruence.
Qed.

Lemma find_reset_same k m s :
  ObjMap.find k m = Some s -> ObjMap.find k (ObjMap.reset k m) = Some None.
Proof.
  induction m as [|[k' v] m IH]; simpl; [discriminate|].
  destruct (Z.eqb_spec k' k) as [->|Hne]; simpl.
  - now rewrite Z.eqb_refl.
  - destruct (Z.eqb_spec k' k); [contradiction|]. auto.
Qed.

Lemma find_reset_other k k' m :
  k' <> k -> ObjMap.find k' (ObjMap.reset k m) = ObjMap.find k' m.
Proof.
  intros Hne. induction m as [|[k0 v] m IH]; simpl; [reflexivity|].
  destruct (Z.eqb_spec k0 k) as [->|Hne0]; simpl.
  - destruct (Z.eqb_spec k k'); [congruence|reflexivity].
  - destruct (k0 =? k'); auto.
Qed.

Lemma In_reset k k' o m :
  In (k', Some o) (ObjMap.reset k m) -> In (k', Some o) m.
Proof.
  induction m as [|[k0 v] m IH]; simpl; [tauto|].
  destruct (k0 =? k); simpl.
  - intros [H|H]; [discriminate|now right].
  - intros [H|H]; [now left|right; auto].
Qed.

Lemma find_erase k m : ObjMap.find k (ObjMap.erase k m) = None.
Proof.
  induction m as [|[k' v] m IH]; simpl; [reflexivity|].
  destruct (Z.eqb_spec k' k) as [->|Hne]; simpl; [assumption|].
  destruct (Z.eqb_spec k' k); [contradiction|assumption].
Qed.

Lemma find_assign_same k v m : ObjMap.find k (ObjMap.assign k v m) = Some v.
Proof.
  induction m as [|[k' v'] m IH]; simpl.
  - now rewrite Z.eqb_refl.
  - destruct (k <? k'); simpl; [now rewrite Z.eqb_refl|].
    destruct (Z.eqb_spec k k') as [->|Hne]; simpl.
    + now rewrite Z.eqb_refl.
    + destruct (Z.eqb_spec k' k); [congruence|assumption].
Qed.

Lemma find_assign_other k k' v m :
  k' <> k -> ObjMap.find k' (ObjMap.assign k v m) = ObjMap.find k' m.
Proof.
  intros Hne. induction m as [|[k0 v0] m IH]; simpl.
  - destruct (Z.eqb_spec k k'); [congruence|reflexivity].
  - destruct (k <? k0); simpl.
    + destruct (Z.eqb_spec k k'); [congruence|reflexivity].
    + destruct (Z.eqb_spec k k0) as [->|Hne0]; simpl.
      * destruct (Z.eqb_spec k0 k'); [congruence|reflexivity].
      * destruct (k0 =? k'); auto.
Qed.

Lemma In_live o m : In o (ObjMap.live m) <-> exists k, In (k, Some o) m.
Proof.
  induction m as [|[k [o'|]] m IH]; simpl.
  - split; [tauto|intros [k []]].
  - rewrite IH. split.
    + intros [->|[k' H]]; [exists k; now left|exists k'; now right].
    + intros [k' [H|H]]; [left; congruence|right; now exists k'].
  - rewrite IH. split.
    + intros [k' H]. exists k'. now right.
    + intros [k' [H|H]]; [discriminate|now exists k'].
Qed.

(** ** Deletion, cleanup and lookup *)

Lemma GetObjectById_of_find e st :
  Int32.in_range (GetID e) ->
  GetObjectById_of e st =
  match ObjMap.find (GetID e) (m_objects st) with
  | None => nullptr
  | Some s => s
  end.
Proof.
  intros Hr. unfold GetObjectById_of, GetObjectById.
  now rewrite of_to_unsigned.
Qed.

Lemma DeleteObject_true e st :
  fst (DeleteObject e st) = true ->
  exists s, ObjMap.find (GetID e) (m_objects st) = Some s /\
    snd (DeleteObject e st) =
    mkManager (ObjMap.reset (GetID e) (m_objects st)) (m_nextId st) true.
Proof.
  unfold DeleteObject.
  destruct (ObjMap.find (GetID e) (m_objects st)) as [s|]; simpl.
  - intros _. now exists s.
  - discriminate.
Qed.

(** What one call to [CleanRemovedObjects] does to the map: it drops the
    first slot when that slot is empty, and nothing else. *)
Lemma CleanRemovedObjects_head_empty k rest n b :
  m_objects (CleanRemovedObjects (mkManager ((k, None) :: rest) n b)) = rest.
Proof. reflexivity. Qed.

Lemma CleanRemovedObjects_head_live k o rest n b :
  m_objects (CleanRemovedObjects (mkManager ((k, Some o) :: rest) n b))
  = (k, Some o) :: rest.
Proof. reflexivity. Qed.

Lemma CleanRemovedObjects_at_most_one st :
  (List.length (m_objects st)
   <= S (List.length (m_objects (CleanRemovedObjects st))))%nat.
Proof.
  destruct st as [[|[k [o|]] rest] n b]; simpl; lia.
Qed.

Lemma CleanRemovedObjects_sorted st :
  map_sorted (m_objects st) -> map_sorted (m_objects (CleanRemovedObjects st)).
Proof.
  destruct st as [[|[k [o|]] rest] n b]; simpl; auto.
  apply sorted_tail.
Qed.

(** A key whose slot is empty or absent stays so through a cleanup. *)
Lemma CleanRemovedObjects_not_found k st :
  map_sorted (m_objects st) ->
  not_found_at k (m_objects st) ->
  not_found_at k (m_objects (CleanRemovedObjects st)).
Proof.
  destruct st as [[|[k0 [o|]] rest] n b]; simpl; auto.
  intros Hs. unfold not_found_at. simpl.
  destruct (Z.eqb_spec k0 k) as [->|Hne]; [|tauto].
  intros _. right. eapply sorted_tail_find; eauto.
Qed.

Lemma CleanRemovedObjects_times_not_found k n : forall st,
  map_sorted (m_objects st) ->
  not_found_at k (m_objects st) ->
  map_sorted (m_objects (CleanRemovedObjects_times n st)) /\
  not_found_at k (m_objects (CleanRemovedObjects_times n st)).
Proof.
  induction n as [|n IH]; intros st Hs Hk; simpl; [tauto|].
  apply IH.
  - now apply CleanRemovedObjects_sorted.
  - now apply CleanRemovedObjects_not_found.
Qed.

(** [Sample.pending] is a state the manager reaches. *)
Lemma pending_reachable :
  let st0 := CObjectManager_new in
  let create := CreateObject Sample.factory
                  (Sample.params (OBJECT_OTHER 1) (-1)) in
  let st1 := snd (create st0) in
  let st2 := snd (create st1) in
  snd (DeleteObject (Sample.factory_object 1) st2)
  = Sample.pending.
Proof. reflexivity. Qed.

(** C2. With one tombstone behind a live first slot ([Sample.pending]: key
    0 owned, key 1 empty), a call to [CleanRemovedObjects] erases nothing
    and clears the pending flag, and no number of further calls ever erases
    key 1: the function looks at [begin()] only, where the claim has the
    single empty slot erased by one call. *)
Theorem CleanRemovedObjects_misses_later_tombstone :
  ObjMap.tombstones (m_objects Sample.pending) = [1] /\
  CleanRemovedObjects Sample.pending
  = mkManager (m_objects Sample.pending) 2 false /\
  forall n,
    ObjMap.keys (m_objects (CleanRemovedObjects_times n Sample.pending))
    = [0; 1].
Proof.
  split; [reflexivity|]. split; [reflexivity|].
  intros [|n]; [reflexivity|]. simpl.
  induction n as [|n IH]; [reflexivity|exact IH].
Qed.

(** C3. For a live entity [e], after [DeleteObject(e)] and any number of
    calls to [CleanRemovedObjects] (in particular enough of them to drain
    the empty slots), [GetObjectById] at [e]'s identifier returns
    not-found. *)
Theorem GetObjectById_after_delete_and_clean st e n :
  map_sorted (m_objects st) ->
  Int32.in_range (GetID e) ->
  ObjMap.find (GetID e) (m_objects st) = Some (Some e) ->
  GetObjectById_of e
    (CleanRemovedObjects_times n (snd (DeleteObject e st))) = nullptr.
Proof.
  intros Hs Hr Hlive.
  rewrite GetObjectById_of_find by assumption.
  assert (Hdel : snd (DeleteObject e st)
                 = mkManager (ObjMap.reset (GetID e) (m_objects st))
                             (m_nextId st) true).
  { unfold DeleteObject. now rewrite Hlive. }
  rewrite Hdel.
  destruct (CleanRemovedObjects_times_not_found (GetID e) n
              (mkManager (ObjMap.reset (GetID e) (m_objects st))
                         (m_nextId st) true)) as [_ [H|H]].
  - unfold map_sorted. simpl. now rewrite keys_reset.
  - left. simpl. eapply find_reset_same; eauto.
  - now rewrite H.
  - now rewrite H.
Qed.

Lemma GetObjectById_after_delete_and_clean_witness :
  GetObjectById_of (Sample.factory_object 0)
    (CleanRemovedObjects_times 1
       (snd (DeleteObject (Sample.factory_object 0)
               (mkManager [(0, Some (Sample.factory_object 0));
                           (1, Some (Sample.factory_object 1))] 2 false))))
  = nullptr.
Proof.
  apply GetObjectById_after_delete_and_clean.
  - repeat constructor; simpl; lia.
  - unfold Int32.in_range, Int32.INT_MIN, Int32.INT_MAX. simpl. lia.
  - reflexivity.
Defined.

(** C9. As soon as [DeleteObject(e)] has returned true, and before any
    cleanup, the key of [e] is still in the map with an empty slot, and
    [GetObjectById] at [e]'s identifier returns not-found, exactly as it
    does on the map with that key erased. *)
Theorem GetObjectById_tombstone st e :
  Int32.in_range (GetID e) ->
  fst (DeleteObject e st) = true ->
  let st' := snd (DeleteObject e st) in
  ObjMap.find (GetID e) (m_objects st') = Some None /\
  GetObjectById_of e st' = nullptr /\
  GetObjectById_of e st'
  = GetObjectById_of e
      (mkManager (ObjMap.erase (GetID e) (m_objects st'))
                 (m_nextId st') (m_shouldCleanRemovedObjects st')).
Proof.
  intros Hr Htrue st'.
  destruct (DeleteObject_true e st Htrue) as [s [Hfind Hst]].
  assert (Hk : ObjMap.find (GetID e) (m_objects st') = Some None).
  { subst st'. rewrite Hst. simpl. eapply find_reset_same; eauto. }
  split; [exact Hk|].
  rewrite !GetObjectById_of_find by assumption.
  rewrite Hk. simpl. rewrite find_erase. split; reflexivity.
Qed.

Lemma GetObjectById_tombstone_witness :
  let e := Sample.factory_object 1 in
  let st' := snd (DeleteObject e
                    (mkManager [(0, Some (Sample.factory_object 0));
                                (1, Some e)] 2 false)) in
  ObjMap.find (GetID e) (m_objects st') = Some None /\
  GetObjectById_of e st' = nullptr /\
  GetObjectById_of e st'
  = GetObjectById_of e
      (mkManager (ObjMap.erase (GetID e) (m_objects st'))
                 (m_nextId st') (m_shouldCleanRemovedObjects st')).
Proof.
  apply (GetObjectById_tombstone
           (mkManager [(0, Some (Sample.factory_object 0));
                       (1, Some (Sample.factory_object 1))] 2 false)
           (Sample.factory_object 1)).
  - unfold Int32.in_range, Int32.INT_MIN, Int32.INT_MAX. simpl. lia.
  - reflexivity.
Defined.

(** ** The invariants hold in every state the manager reaches *)

Lemma keys_assign_In k v m x :
  In x (ObjMap.keys (ObjMap.assign k v m)) -> x = k \/ In x (ObjMap.keys m).
Proof.
  induction m as [|[k' v'] m IH]; simpl.
  - intros [H|[]]. now left.
  - destruct (k <? k'); simpl; [intuition|].
    destruct (Z.eqb_spec k k') as [->|Hne]; simpl; intuition.
Qed.

Lemma assign_sorted k v m :
  map_sorted m -> map_sorted (ObjMap.assign k v m).
Proof.
  unfold map_sorted.
  induction m as [|[k' v'] m IH]; simpl; intros Hs.
  - repeat constructor.
  - apply StronglySorted_inv in Hs. destruct Hs as [Hs Hall].
    destruct (Z.ltb_spec k k') as [Hlt|Hge]; simpl.
    + constructor.
      * now constructor.
      * constructor; [assumption|].
        eapply Forall_impl; [|exact Hall]. simpl. intros; lia.
    + destruct (Z.eqb_spec k k') as [->|Hne]; simpl.
      * now constructor.
      * constructor; [auto|].
        rewrite Forall_forall in *. intros x Hx.
        apply keys_assign_In in Hx. destruct Hx as [->|Hx]; [lia|auto].
Qed.

Lemma In_assign k v m k' o :
  In (k', Some o) (ObjMap.assign k v m) ->
  (k' = k /\ v = Some o) \/ In (k', Some o) m.
Proof.
  induction m as [|[k0 v0] m IH]; simpl.
  - intros [H|[]]. inversion H. auto.
  - destruct (k <? k0); simpl.
    + intros [H|H]; [inversion H; auto|auto].
    + destruct (k =? k0); simpl.
      * intros [H|H]; [inversion H; auto|auto].
      * intros [H|H]; [auto|]. apply IH in H. tauto.
Qed.

Lemma DeleteObject_ok e st :
  registry_ok st -> registry_ok (snd (DeleteObject e st)).
Proof.
  intros [Hs Hi]. unfold DeleteObject.
  destruct (ObjMap.find (GetID e) (m_objects st)) as [s|]; simpl;
    [|now split].
  split; simpl.
  - unfold map_sorted. now rewrite keys_reset.
  - intros k o Hin. apply Hi. eapply In_reset; eauto.
Qed.

Lemma CleanRemovedObjects_ok st :
  registry_ok st -> registry_ok (CleanRemovedObjects st).
Proof.
  intros [Hs Hi]. split.
  - now apply CleanRemovedObjects_sorted.
  - destruct st as [[|[k [o|]] rest] n b]; simpl in *; auto.
    intros k' o' Hin. apply Hi. now right.
Qed.

(** The factory builds the object under the identifier it is given. *)
Lemma CreateObject_ok factory params st :
  (forall p o, factory p = Some o -> GetID o = p_id p) ->
  registry_ok st -> registry_ok (snd (CreateObject factory params st)).
Proof.
  intros Hf [Hs Hi]. unfold CreateObject.
  destruct (p_id params <? 0); simpl.
  - destruct (ObjMap.find _ _) as [s|]; simpl; [now split|].
    destruct (factory _) as [o|] eqn:Ho; simpl; [|now split].
    split; simpl; [now apply assign_sorted|].
    intros k o' Hin. apply In_assign in Hin.
    destruct Hin as [[-> Heq]|Hin]; [|auto].
    inversion Heq; subst. now apply Hf in Ho.
  - destruct (ObjMap.find _ _) as [s|]; simpl; [now split|].
    destruct (factory _) as [o|] eqn:Ho; simpl; [|now split].
    split; simpl; [now apply assign_sorted|].
    intros k o' Hin. apply In_assign in Hin.
    destruct Hin as [[-> Heq]|Hin]; [|auto].
    inversion Heq; subst. now apply Hf in Ho.
Qed.

Lemma CObjectManager_new_ok : registry_ok CObjectManager_new.
Proof. split; [constructor|intros k o []]. Qed.

(** ** Teams *)

Lemma TeamExists_loop_true team objects :
  TeamExists_loop team objects = true <->
  exists o, In o objects /\ GetActive o = true /\ GetTeam o = team.
Proof.
  induction objects as [|object rest IH]; simpl.
  - split; [discriminate|intros [o [[] _]]].
  - destruct (GetActive object) eqn:Hact; simpl.
    + destruct (Z.eqb_spec (GetTeam object) team) as [Heq|Hne].
      * split; [intros _; exists object; auto|reflexivity].
      * rewrite IH. split.
        -- intros [o [Hin H]]. exists o. auto.
        -- intros [o [[->|Hin] [Ha Ht]]]; [contradiction|exists o; auto].
    + rewrite IH. split.
      * intros [o [Hin H]]. exists o. auto.
      * intros [o [[->|Hin] [Ha Ht]]]; [congruence|exists o; auto].
Qed.

(** C7. [TeamExists(0)] is true in every state, the empty registry
    included; for a team other than 0, [TeamExists] is true exactly when
    some entity held by the registry is active and of that team. *)
Theorem TeamExists_spec team st :
  TeamExists team st = true <->
  team = 0 \/
  exists k o, In (k, Some o) (m_objects st) /\
              GetActive o = true /\ GetTeam o = team.
Proof.
  unfold TeamExists, GetAllObjects.
  destruct (Z.eqb_spec team 0) as [->|Hne].
  - split; auto.
  - rewrite TeamExists_loop_true. split.
    + intros [o [Hin H]]. right. apply In_live in Hin.
      destruct Hin as [k Hin]. exists k, o. auto.
    + intros [Heq|[k [o [Hin H]]]]; [contradiction|].
      exists o. split; [|exact H]. apply In_live. now exists k.
Qed.

Lemma TeamExists_zero_empty : TeamExists 0 CObjectManager_new = true.
Proof. reflexivity. Qed.

(** ** Creation *)

Lemma set_id_same params : set_id params (p_id params) = params.
Proof. destruct params; reflexivity. Qed.

Lemma p_type_set_id params id : p_type (set_id params id) = p_type params.
Proof. reflexivity. Qed.

Lemma GetObjectById_find id st :
  0 <= id <= Int32.INT_MAX ->
  GetObjectById id st =
  match ObjMap.find id (m_objects st) with
  | None => nullptr
  | Some s => s
  end.
Proof.
  intros H. unfold GetObjectById, Int32.of_unsigned.
  rewrite wrap_in_range; [reflexivity|].
  unfold Int32.in_range, Int32.INT_MIN, Int32.INT_MAX in *. lia.
Qed.

Lemma counter_advances z :
  0 <= z < Int32.INT_MAX -> Int32.wrap (z + 1) = z + 1.
Proof.
  intros H. apply wrap_in_range.
  unfold Int32.in_range, Int32.INT_MIN, Int32.INT_MAX in *. lia.
Qed.

(** C4. With [params.id < 0] the identifier is the current value of the
    counter, and the counter advances by one; otherwise it is the supplied
    identifier and the counter stays. The identifier is asserted to be
    free. A factory that yields no entity makes the call throw the creation
    error with the requested category, the map untouched; otherwise the
    call returns the factory's object, which the registry now holds under
    that identifier, every other key being as before. *)
Theorem CreateObject_spec factory params st :
  let unset := p_id params <? 0 in
  let id := if unset then m_nextId st else p_id params in
  let result := fst (CreateObject factory params st) in
  let st' := snd (CreateObject factory params st) in
  m_nextId st'
  = (if unset then Int32.wrap (m_nextId st + 1) else m_nextId st) /\
  (unset = true -> 0 <= m_nextId st < Int32.INT_MAX ->
   m_nextId st' = m_nextId st + 1) /\
  match ObjMap.find id (m_objects st) with
  | Some _ => result = AssertionFailed
  | None =>
      match factory (set_id params id) with
      | None =>
          result = Thrown (mkException creation_failure_message (p_type params))
          /\ m_objects st' = m_objects st
      | Some object =>
          result = Returned object /\
          ObjMap.find id (m_objects st') = Some (Some object) /\
          (forall k, k <> id ->
             ObjMap.find k (m_objects st') = ObjMap.find k (m_objects st)) /\
          (0 <= id <= Int32.INT_MAX -> GetObjectById id st' = Some object)
      end
  end.
Proof.
  intros unset id result st'. subst unset id result st'.
  unfold CreateObject.
  destruct (p_id params <? 0) eqn:Hid; simpl.
  - destruct (ObjMap.find (m_nextId st) (m_objects st)) as [s|] eqn:Hfind;
      simpl.
    + repeat split; auto using counter_advances.
    + destruct (factory (set_id params (m_nextId st))) as [object|] eqn:Hf;
        simpl.
      * repeat split; auto using counter_advances, find_assign_same.
        -- intros k Hk. now apply find_assign_other.
        -- intros Hr. rewrite GetObjectById_find by assumption. simpl.
           now rewrite find_assign_same.
      * repeat split; auto using counter_advances.
  - rewrite set_id_same.
    destruct (ObjMap.find (p_id params) (m_objects st)) as [s|] eqn:Hfind;
      simpl.
    + repeat split; auto; discriminate.
    + destruct (factory params) as [object|] eqn:Hf; simpl.
      * repeat split; auto using find_assign_same; try discriminate.
        -- intros k Hk. now apply find_assign_other.
        -- intros Hr. rewrite GetObjectById_find by assumption. simpl.
           now rewrite find_assign_same.
      * repeat split; auto; discriminate.
Qed.

(** The three ways a creation ends, on the sample factory. *)
Example CreateObject_returns :
  CreateObject Sample.factory (Sample.params (OBJECT_OTHER 1) (-1))
    Sample.pending
  = (Returned (Sample.factory_object 2),
     mkManager [(0, Some (Sample.factory_object 0)); (1, None);
                (2, Some (Sample.factory_object 2))] 3 true).
Proof. reflexivity. Qed.

Example CreateObject_throws :
  CreateObject Sample.factory (Sample.params OBJECT_NULL 7) Sample.pending
  = (Thrown (mkException creation_failure_message OBJECT_NULL),
     Sample.pending).
Proof. reflexivity. Qed.

Example CreateObject_asserts :
  fst (CreateObject Sample.factory (Sample.params (OBJECT_OTHER 1) 1)
         Sample.pending)
  = AssertionFailed.
Proof. reflexivity. Qed.

(** C10. A creation with an unset identifier whose factory yields nothing
    throws the creation error and leaves the map as it was, but the
    counter has advanced: the next creation with an unset identifier keeps
    its object under the counter's former value plus one, where without
    the failed call it would have been the former value. *)
Theorem CreateObject_failure_advances_counter factory params st :
  p_id params < 0 ->
  0 <= m_nextId st < Int32.INT_MAX ->
  ObjMap.find (m_nextId st) (m_objects st) = None ->
  factory (set_id params (m_nextId st)) = None ->
  let st' := snd (CreateObject factory params st) in
  fst (CreateObject factory params st)
  = Thrown (mkException creation_failure_message (p_type params)) /\
  m_objects st' = m_objects st /\
  m_nextId st' = m_nextId st + 1 /\
  m_nextId st < m_nextId st' /\
  forall params2 object,
    p_id params2 < 0 ->
    (factory (set_id params2 (m_nextId st)) = Some object ->
     fst (CreateObject factory params2 st) = Returned object /\
     ObjMap.find (m_nextId st)
       (m_objects (snd (CreateObject factory params2 st)))
     = Some (Some object)) /\
    (factory (set_id params2 (m_nextId st + 1)) = Some object ->
     ObjMap.find (m_nextId st + 1) (m_objects st) = None ->
     fst (CreateObject factory params2 st') = Returned object /\
     ObjMap.find (m_nextId st + 1)
       (m_objects (snd (CreateObject factory params2 st')))
     = Some (Some object)).
Proof.
  intros Hid Hrange Hfree Hfail st'.
  assert (Hst' : st' = mkManager (m_objects st) (m_nextId st + 1)
                                 (m_shouldCleanRemovedObjects st)).
  { subst st'. unfold CreateObject.
    apply Z.ltb_lt in Hid. rewrite Hid. simpl. rewrite Hfree, Hfail. simpl.
    now rewrite counter_advances. }
  assert (Hunset : forall p, p_id p < 0 -> (p_id p <? 0) = true).
  { intros p Hp. now apply Z.ltb_lt. }
  split; [|split; [|split; [|split]]].
  - unfold CreateObject. rewrite (Hunset _ Hid). simpl.
    now rewrite Hfree, Hfail.
  - now rewrite Hst'.
  - now rewrite Hst'.
  - rewrite Hst'. simpl. lia.
  - intros params2 object Hid2. split.
    + intros Hmade. unfold CreateObject. rewrite (Hunset _ Hid2). simpl.
      rewrite Hfree, Hmade. simpl. split; [reflexivity|].
      apply find_assign_same.
    + intros Hmade Hfree'. rewrite Hst'. unfold CreateObject.
      rewrite (Hunset _ Hid2). simpl.
      rewrite Hfree', Hmade. simpl. split; [reflexivity|].
      apply find_assign_same.
Qed.

Lemma CreateObject_failure_advances_counter_witness :
  fst (CreateObject Sample.factory (Sample.params OBJECT_NULL (-1))
         CObjectManager_new)
  = Thrown (mkException creation_failure_message OBJECT_NULL) /\
  m_nextId (snd (CreateObject Sample.factory (Sample.params OBJECT_NULL (-1))
                   CObjectManager_new)) = 1.
Proof.
  destruct (CreateObject_failure_advances_counter Sample.factory
              (Sample.params OBJECT_NULL (-1)) CObjectManager_new)
    as [Hthrown [_ [Hnext _]]].
  - simpl. lia.
  - unfold Int32.INT_MAX. simpl. lia.
  - reflexivity.
  - reflexivity.
  - split; [exact Hthrown|exact Hnext].
Defined.

(** ** Radar: the category filter *)

Lemma type_listed_In type oType :
  type_listed type oType = true <-> In oType type.
Proof.
  unfold type_listed. rewrite existsb_exists. split.
  - intros [x [Hin Heq]]. apply ObjectType_eqb_eq in Heq. now subst.
  - intros Hin. exists oType. split; [assumption|apply ObjectType_eqb_refl].
Qed.

Lemma type_listed_nonempty type oType :
  type_listed type oType = true -> 0 < Z.of_nat (List.length type).
Proof. destruct type; simpl; [discriminate|lia]. Qed.

Lemma system_type_filter type oType :
  is_system_type oType = true ->
  (Radar_type_filter type oType = true <-> In oType type).
Proof.
  intros Hsys. unfold Radar_type_filter. rewrite Hsys.
  rewrite <- type_listed_In.
  destruct (type_listed type oType) eqn:Hl; simpl.
  - apply type_listed_nonempty in Hl.
    destruct (Z.eqb_spec (Z.of_nat (List.length type)) 0); [lia|tauto].
  - destruct (Z.ltb_spec 0 (Z.of_nat (List.length type))); [tauto|].
    destruct (Z.eqb_spec (Z.of_nat (List.length type)) 0); [tauto|lia].
Qed.

(** ** Radar: the requester test *)

(** In a registry that keeps its objects under their identifiers and owns
    the requester, the identifier test singles out the requester's own
    slot: a slot passes it exactly when its content is the requester. *)
Lemma same_object_exact pThis st k s :
  registry_ok st -> requester_held pThis st ->
  In (k, s) (m_objects st) ->
  (same_object s pThis = true <-> s = pThis).
Proof.
  intros [Hsorted Hids] Hheld Hin.
  destruct s as [o|], pThis as [this|]; simpl in *.
  - split.
    + intros Heq. apply Z.eqb_eq in Heq.
      pose proof (Hids _ _ Hin) as Hk. pose proof (Hids _ _ Hheld) as Hk'.
      apply (In_sorted_find _ _ _ Hsorted) in Hin.
      apply (In_sorted_find _ _ _ Hsorted) in Hheld.
      congruence.
    + intros Heq. inversion Heq. apply Z.eqb_refl.
  - split; discriminate.
  - split; discriminate.
  - split; reflexivity.
Qed.

(** ** Radar: what the loop returns *)

Section RadarFacts.
Variable g_unit : float.
Variables FILTER_NONE FILTER_ONLYLANDING FILTER_ONLYFLYING : Z.
Variables FILTER_FRIENDLY FILTER_ENEMY FILTER_NEUTRAL : Z.
Variable NormAngle : float -> float.
Variable RotateAngle : float -> float -> float.
Variable TestAngle : float -> float -> float -> bool.
Variable pThis : CObjectPtr.
Variable thisPosition : Vector.
Variable thisAngle : float.
Variable type : list ObjectType.
Variables angle focus minDist maxDist : float.
Variable furthest : bool.
Variable filter : Z.
Variable cbotTypes : bool.

Local Notation "'candidate'" :=
  (Radar_candidate g_unit FILTER_NONE FILTER_ONLYLANDING FILTER_ONLYFLYING
     FILTER_FRIENDLY FILTER_ENEMY FILTER_NEUTRAL NormAngle RotateAngle
     TestAngle pThis thisPosition thisAngle type angle focus minDist maxDist
     filter cbotTypes).
Local Notation "'step'" :=
  (Radar_step g_unit FILTER_NONE FILTER_ONLYLANDING FILTER_ONLYFLYING
     FILTER_FRIENDLY FILTER_ENEMY FILTER_NEUTRAL NormAngle RotateAngle
     TestAngle pThis thisPosition thisAngle type angle focus minDist maxDist
     furthest filter cbotTypes).
Local Notation "'radar'" :=
  (Radar g_unit FILTER_NONE FILTER_ONLYLANDING FILTER_ONLYFLYING
     FILTER_FRIENDLY FILTER_ENEMY FILTER_NEUTRAL NormAngle RotateAngle
     TestAngle pThis thisPosition thisAngle type angle focus minDist maxDist
     furthest filter cbotTypes).
Local Notation "'score'" := (Radar_score thisPosition furthest).
Local Notation "'init'" := (Radar_init furthest).
Local Notation "'dist'" := (Radar_d thisPosition).

(** A candidate is the object of its slot, and it went through every
    filter. *)
Lemma candidate_slot it o : candidate it = Some o -> snd it = Some o.
Proof.
  unfold Radar_candidate. destruct it as [k [pObj|]]; cbn [snd].
  - destruct (same_object (Some pObj) pThis); [discriminate|].
    repeat match goal with
           | |- (if ?c then _ else _) = _ -> _ => destruct c; try discriminate
           end.
    congruence.
  - destruct (same_object None pThis); discriminate.
Qed.

Lemma candidate_filters k o :
  candidate (k, Some o) = Some o ->
  same_object (Some o) pThis = false /\
  IsObjectBeingTransported o = false /\
  GetActive o = true /\
  GetProxyActivate o = false /\
  Radar_type_filter type (Radar_oType cbotTypes o) = true.
Proof.
  unfold Radar_candidate. cbn [snd].
  destruct (same_object (Some o) pThis); [discriminate|].
  destruct (IsObjectBeingTransported o); [discriminate|].
  destruct (GetActive o); [|discriminate]. cbn [negb].
  destruct (GetProxyActivate o); [discriminate|].
  destruct (Radar_type_filter type (Radar_oType cbotTypes o));
    [|discriminate].
  auto.
Qed.

Lemma score_keeps_some o acc : snd acc <> None -> snd (score o acc) <> None.
Proof.
  unfold Radar_score. intros H.
  destruct (_ || _); simpl; [discriminate|assumption].
Qed.

Lemma score_result o acc :
  snd (score o acc) = snd acc \/ score o acc = (dist o, Some o).
Proof. unfold Radar_score. destruct (_ || _); auto. Qed.

Lemma step_keeps_some acc it : snd acc <> None -> snd (step acc it) <> None.
Proof.
  unfold Radar_step. destruct (candidate it); auto using score_keeps_some.
Qed.

Lemma loop_keeps_some l : forall acc,
  snd acc <> None -> snd (fold_left step l acc) <> None.
Proof.
  induction l as [|it l IH]; simpl; auto using step_keeps_some.
Qed.

Lemma loop_skips l : forall acc,
  (forall it, In it l -> candidate it = None) -> fold_left step l acc = acc.
Proof.
  induction l as [|it l IH]; simpl; intros acc H; [reflexivity|].
  unfold Radar_step at 2. rewrite (H it) by now left.
  apply IH. intros it' Hin. apply H. now right.
Qed.

(** The reference the loop ends with is the one it started with or a
    candidate of the slots it went through. *)
Lemma loop_result l r : forall acc,
  snd (fold_left step l acc) = Some r ->
  snd acc = Some r \/ exists it, In it l /\ candidate it = Some r.
Proof.
  induction l as [|it l IH]; simpl; intros acc H; [now left|].
  apply IH in H. destruct H as [H|[it' [Hin Hc]]].
  - unfold Radar_step in H. destruct (candidate it) as [o|] eqn:Hc.
    + destruct (score_result o acc) as [Hs|Hs].
      * left. congruence.
      * right. exists it. split; [now left|].
        rewrite Hs in H. simpl in H. congruence.
    + now left.
  - right. exists it'. split; [now right|assumption].
Qed.

(** [Radar] returns null or an object owned by a slot of the registry
    that passed as a candidate. *)
Lemma Radar_result st r :
  radar st = Some r ->
  exists k, In (k, Some r) (m_objects st) /\ candidate (k, Some r) = Some r.
Proof.
  unfold Radar, Radar_loop. intros H. apply loop_result in H.
  destruct H as [H|[[k s] [Hin Hc]]]; [discriminate|].
  pose proof (candidate_slot _ _ Hc) as Hs. simpl in Hs. subst s.
  now exists k.
Qed.
(** The sentinel of lines 273-274. *)
Lemma Radar_init_sentinel :
  init = (if furthest then zero else sentinel_nearest, nullptr).
Proof. unfold Radar_init. destruct furthest; reflexivity. Qed.

(** The sentinel gives way to a distance strictly on its good side. *)
Lemma score_replaces_sentinel c :
  (if furthest then gt (dist c) zero else lt (dist c) sentinel_nearest)
  = true ->
  score c init = (dist c, Some c).
Proof.
  unfold Radar_score, Radar_init. destruct furthest; simpl; intros ->;
    reflexivity.
Qed.

(** While the loop has no best object, its best distance is the sentinel. *)
Lemma loop_none l : forall acc,
  snd (fold_left step l acc) = None -> fold_left step l acc = acc.
Proof.
  induction l as [|it l IH]; simpl; intros acc H; [reflexivity|].
  destruct (snd (step acc it)) as [o|] eqn:Hs.
  - exfalso. revert H. apply loop_keeps_some. rewrite Hs. discriminate.
  - rewrite (IH _ H). unfold Radar_step in *.
    destruct (candidate it) as [o|]; [|reflexivity].
    destruct (score_result o acc) as [_|Hr]; [|rewrite Hr in Hs; discriminate].
    unfold Radar_score in *. destruct (_ || _); [discriminate|reflexivity].
Qed.

(** A candidate whose distance is strictly on the good side of the
    sentinel leaves the loop with a best object. *)
Lemma loop_finds pre it c post :
  candidate it = Some c ->
  (if furthest then gt (dist c) zero else lt (dist c) sentinel_nearest)
  = true ->
  snd (fold_left step (pre ++ it :: post) init) <> None.
Proof.
  intros Hc Hd.
  change (pre ++ it :: post) with (pre ++ [it] ++ post).
  rewrite fold_left_app. simpl.
  apply loop_keeps_some.
  destruct (snd (fold_left step pre init)) as [o|] eqn:Hpre.
  - apply step_keeps_some. rewrite Hpre. discriminate.
  - rewrite (loop_none _ _ Hpre). unfold Radar_step. rewrite Hc.
    rewrite score_replaces_sentinel by assumption. discriminate.
Qed.

(** C5, as the code has it. The sentinel is 100000 in nearest mode and 0
    in furthest mode. The first candidate that passes all filters replaces
    it and becomes the running best when its distance is strictly below
    100000 in nearest mode, strictly above 0 in furthest mode (in a
    registry that keeps its objects under their identifiers and owns the
    requester, where [same_object] is the pointer test of line 279). And
    whenever some candidate that passes all filters has such a distance,
    be it the first or not, the result is non-empty. *)
Theorem Radar_first_candidate st :
  init = (if furthest then zero else sentinel_nearest, nullptr) /\
  (forall pre k c post,
     registry_ok st -> requester_held pThis st ->
     m_objects st = pre ++ (k, Some c) :: post ->
     (forall it, In it pre -> candidate it = None) ->
     candidate (k, Some c) = Some c ->
     (if furthest then gt (dist c) zero else lt (dist c) sentinel_nearest)
     = true ->
     fold_left step (pre ++ [(k, Some c)]) init = (dist c, Some c)) /\
  (forall k c,
     In (k, Some c) (m_objects st) ->
     candidate (k, Some c) = Some c ->
     (if furthest then gt (dist c) zero else lt (dist c) sentinel_nearest)
     = true ->
     radar st <> nullptr).
Proof.
  split; [apply Radar_init_sentinel|]. split.
  - intros pre k c post _ _ Hm Hpre Hc Hd.
    rewrite fold_left_app, (loop_skips pre) by assumption. simpl.
    unfold Radar_step. rewrite Hc. now apply score_replaces_sentinel.
  - intros k c Hin Hc Hd. apply in_split in Hin.
    destruct Hin as [l1 [l2 Hsplit]].
    unfold Radar, Radar_loop. rewrite Hsplit.
    now apply loop_finds with (c := c).
Qed.

(** C6. A candidate of a system category (TOTO, CONTROLLER) does not pass
    the category filter of the empty set; it passes that of a set exactly
    when the set lists its category, and [Radar] returns such an object
    only for a non-empty set that lists its category. *)
Theorem Radar_system_type_on_request oType :
  is_system_type oType = true ->
  Radar_type_filter [] oType = false /\
  (Radar_type_filter type oType = true <-> In oType type) /\
  forall st r,
    radar st = Some r -> Radar_oType cbotTypes r = oType ->
    type <> [] /\ In oType type.
Proof.
  intros Hsys. split; [|split].
  - unfold Radar_type_filter. now rewrite Hsys.
  - now apply system_type_filter.
  - intros st r Hr Ht. apply Radar_result in Hr. destruct Hr as [k [_ Hc]].
    apply candidate_filters in Hc. destruct Hc as (_ & _ & _ & _ & Hf).
    rewrite Ht in Hf. apply system_type_filter in Hf; [|assumption].
    split; [|assumption]. intros Hnil. rewrite Hnil in Hf. exact Hf.
Qed.

Lemma CleanRemovedObjects_ids st :
  ids_agree (m_objects st) -> ids_agree (m_objects (CleanRemovedObjects st)).
Proof.
  destruct st as [[|[k [o|]] rest] n b]; simpl; auto.
  intros H k' o' Hin. apply H. now right.
Qed.

Lemma CleanRemovedObjects_times_ids n : forall st,
  ids_agree (m_objects st) ->
  ids_agree (m_objects (CleanRemovedObjects_times n st)).
Proof.
  induction n as [|n IH]; intros st H; simpl;
    auto using CleanRemovedObjects_ids.
Qed.

(** C8. Once [DeleteObject(e)] has emptied the slot of a live [e], and
    through any number of cleanups, whatever the query, [Radar] does not
    return [e]: its result is null or an object that a slot still owns. *)
Theorem Radar_not_deleted st e n :
  registry_ok st ->
  ObjMap.find (GetID e) (m_objects st) = Some (Some e) ->
  let st' := CleanRemovedObjects_times n (snd (DeleteObject e st)) in
  same_object (radar st') (Some e) = false /\
  forall r, radar st' = Some r ->
            r <> e /\ exists k, In (k, Some r) (m_objects st').
Proof.
  intros [Hsorted Hids] Hlive st'.
  assert (Hdel : snd (DeleteObject e st)
                 = mkManager (ObjMap.reset (GetID e) (m_objects st))
                             (m_nextId st) true).
  { unfold DeleteObject. now rewrite Hlive. }
  destruct (CleanRemovedObjects_times_not_found (GetID e) n
              (snd (DeleteObject e st))) as [Hs' Hnf].
  { rewrite Hdel. unfold map_sorted. simpl. now rewrite keys_reset. }
  { left. rewrite Hdel. simpl. eapply find_reset_same; eauto. }
  assert (Hids' : ids_agree (m_objects st')).
  { apply CleanRemovedObjects_times_ids. rewrite Hdel. simpl.
    intros k o Hin. apply Hids. eapply In_reset; eauto. }
  fold st' in Hs', Hnf.
  assert (Hid : forall r, radar st' = Some r -> GetID r <> GetID e).
  { intros r Hr Heq. apply Radar_result in Hr. destruct Hr as [k [Hin _]].
    pose proof (Hids' _ _ Hin) as Hk. subst k. rewrite Heq in Hin.
    apply In_sorted_find in Hin; [|assumption].
    destruct Hnf as [Hnf|Hnf]; congruence. }
  split.
  - destruct (radar st') as [r|] eqn:Hr; simpl; [|reflexivity].
    apply Z.eqb_neq. now apply Hid.
  - intros r Hr. split.
    + intros ->. now apply (Hid e).
    + apply Radar_result in Hr. destruct Hr as [k [Hin _]]. now exists k.
Qed.
End RadarFacts.

(** ** Radar: closed instances *)

Lemma Radar_first_candidate_witness :
  Radar_init false = (sentinel_nearest, nullptr) /\
  Radar_loop Sample.g_unit Sample.FILTER_NONE Sample.FILTER_ONLYLANDING
    Sample.FILTER_ONLYFLYING Sample.FILTER_FRIENDLY Sample.FILTER_ENEMY
    Sample.FILTER_NEUTRAL Sample.NormAngle Sample.RotateAngle
    Sample.TestAngle None Vector_origin zero [] zero Sample.full_circle
    zero Sample.hundred false 0 false [(0, Some Sample.wreck1)]
  = (Radar_d Vector_origin Sample.wreck1, Some Sample.wreck1) /\
  Sample.Radar None Vector_origin zero [] zero Sample.full_circle zero
    Sample.hundred true 0 false
    (Sample.world [(0, Some Sample.here); (1, Some Scene.friend)])
  <> nullptr.
Proof.
  split; [|split].
  - apply (Radar_first_candidate Sample.g_unit Sample.FILTER_NONE
             Sample.FILTER_ONLYLANDING Sample.FILTER_ONLYFLYING
             Sample.FILTER_FRIENDLY Sample.FILTER_ENEMY Sample.FILTER_NEUTRAL
             Sample.NormAngle Sample.RotateAngle Sample.TestAngle
             None Vector_origin zero [] zero Sample.full_circle zero
             Sample.hundred false 0 false
             (Sample.world [(0, Some Sample.wreck1)])).
  - destruct (Radar_first_candidate Sample.g_unit Sample.FILTER_NONE
                Sample.FILTER_ONLYLANDING Sample.FILTER_ONLYFLYING
                Sample.FILTER_FRIENDLY Sample.FILTER_ENEMY
                Sample.FILTER_NEUTRAL Sample.NormAngle Sample.RotateAngle
                Sample.TestAngle None Vector_origin zero [] zero
                Sample.full_circle zero Sample.hundred false 0 false
                (Sample.world [(0, Some Sample.wreck1)]))
      as [_ [Hfirst _]].
    apply (Hfirst [] 0 Sample.wreck1 []).
    + split.
      * repeat constructor.
      * intros k o [H|[]]. inversion H. reflexivity.
    + exact I.
    + reflexivity.
    + intros it [].
    + vm_compute. reflexivity.
    + vm_compute. reflexivity.
  - destruct (Radar_first_candidate Sample.g_unit Sample.FILTER_NONE
                Sample.FILTER_ONLYLANDING Sample.FILTER_ONLYFLYING
                Sample.FILTER_FRIENDLY Sample.FILTER_ENEMY
                Sample.FILTER_NEUTRAL Sample.NormAngle Sample.RotateAngle
                Sample.TestAngle None Vector_origin zero [] zero
                Sample.full_circle zero Sample.hundred true 0 false
                (Sample.world [(0, Some Sample.here); (1, Some Scene.friend)]))
      as [_ [_ Hany]].
    apply (Hany 1 Scene.friend).
    + right. left. reflexivity.
    + vm_compute. reflexivity.
    + vm_compute. reflexivity.
Defined.

(** Whatever the filter bits and the angle routines are, the object at the
    position of the query is a candidate of the full-circle query below,
    and the furthest-mode query returns null. *)
Lemma Radar_furthest_distance_zero F0 F1 F2 F3 F4 F5 N R T :
  Radar_candidate Sample.g_unit F0 F1 F2 F3 F4 F5 N R T
    None Vector_origin zero [] zero Sample.full_circle
    zero Sample.hundred 0 false (0, Some Sample.here) = Some Sample.here /\
  Radar Sample.g_unit F0 F1 F2 F3 F4 F5 N R T
    None Vector_origin zero [] zero Sample.full_circle zero
    Sample.hundred true 0 false
    (Sample.world [(0, Some Sample.here)]) = nullptr.
Proof.
  assert (Hc : Radar_candidate Sample.g_unit F0 F1 F2 F3 F4 F5 N R T
                 None Vector_origin zero [] zero Sample.full_circle
                 zero Sample.hundred 0 false (0, Some Sample.here)
               = Some Sample.here).
  { unfold Radar_candidate, Radar_flying_filter, Radar_team_filter,
      Radar_enemy_filter, Radar_angle_filter.
    cbn. rewrite !andb_false_r. cbn.
    rewrite orb_true_r. reflexivity. }
  split; [exact Hc|].
  unfold Radar, Radar_loop. cbn [fold_left m_objects Sample.world].
  unfold Radar_step. rewrite Hc. reflexivity.
Qed.

(** C5, the claim as stated fails: in furthest mode a candidate at the
    very position of the query passes every filter (the band starts at 0,
    the cone is the full circle) and is the only one, yet its distance 0 is
    not strictly above the sentinel 0, and [Radar] returns null. *)
Lemma Radar_furthest_drops_distance_zero :
  Sample.Radar_candidate None Vector_origin zero [] zero Sample.full_circle
    zero Sample.hundred 0 false (0, Some Sample.here) = Some Sample.here /\
  Radar_d Vector_origin Sample.here = zero /\
  Sample.Radar None Vector_origin zero [] zero Sample.full_circle zero
    Sample.hundred true 0 false
    (Sample.world [(0, Some Sample.here)]) = nullptr.
Proof. vm_compute. repeat split. Qed.

(** The same in nearest mode, at a distance of 200000 inside a band that
    reaches 400000. *)
Example Radar_nearest_drops_distance_beyond_sentinel :
  let far := Sample.object 0 (OBJECT_OTHER 0) 0 (of_Z 200000) zero in
  Sample.Radar_candidate None Vector_origin zero [] zero Sample.full_circle
    zero (of_Z 100000) 0 false (0, Some far) = Some far /\
  Sample.Radar None Vector_origin zero [] zero Sample.full_circle zero
    (of_Z 100000) false 0 false (Sample.world [(0, Some far)]) = nullptr.
Proof. vm_compute. repeat split. Qed.

Lemma Radar_system_type_on_request_witness :
  Radar_type_filter [] OBJECT_TOTO = false /\
  (Radar_type_filter [OBJECT_TOTO] OBJECT_TOTO = true <->
   In OBJECT_TOTO [OBJECT_TOTO]).
Proof.
  destruct (Radar_system_type_on_request Sample.g_unit Sample.FILTER_NONE
              Sample.FILTER_ONLYLANDING Sample.FILTER_ONLYFLYING
              Sample.FILTER_FRIENDLY Sample.FILTER_ENEMY Sample.FILTER_NEUTRAL
              Sample.NormAngle Sample.RotateAngle Sample.TestAngle
              None Vector_origin zero [OBJECT_TOTO] zero Sample.full_circle
              zero Sample.hundred false 0 false OBJECT_TOTO)
    as [Hempty [Hiff _]].
  - reflexivity.
  - split; [exact Hempty|exact Hiff].
Defined.

(** A system object is returned when its category is asked for, and not
    by the wildcard. *)
Example Radar_toto_on_request :
  Sample.Radar None Vector_origin zero [OBJECT_TOTO] zero Sample.full_circle
    zero Sample.hundred false 0 false
    (Sample.world [(0, Some Sample.toto)]) = Some Sample.toto /\
  Sample.Radar None Vector_origin zero [] zero Sample.full_circle
    zero Sample.hundred false 0 false
    (Sample.world [(0, Some Sample.toto)]) = nullptr.
Proof. vm_compute. split; reflexivity. Qed.

Lemma Radar_not_deleted_witness :
  let st := mkManager [(0, Some (Sample.factory_object 0));
                       (1, Some (Sample.factory_object 1))] 2 false in
  let e := Sample.factory_object 1 in
  same_object
    (Sample.Radar None Vector_origin zero [] zero Sample.full_circle zero
       Sample.hundred false 0 false
       (CleanRemovedObjects_times 0 (snd (DeleteObject e st))))
    (Some e) = false.
Proof.
  intros st e.
  destruct (Radar_not_deleted Sample.g_unit Sample.FILTER_NONE
              Sample.FILTER_ONLYLANDING Sample.FILTER_ONLYFLYING
              Sample.FILTER_FRIENDLY Sample.FILTER_ENEMY Sample.FILTER_NEUTRAL
              Sample.NormAngle Sample.RotateAngle Sample.TestAngle
              None Vector_origin zero [] zero Sample.full_circle zero
              Sample.hundred false 0 false st e 0%nat)
    as [Hnot _].
  - split.
    + repeat constructor; simpl; lia.
    + intros k o [H|[H|[]]]; inversion H; reflexivity.
  - reflexivity.
  - exact Hnot.
Defined.

(** ** Radar: the ruin family *)

Lemma ruin_variant_never_base variant oType :
  is_ruin variant = true -> variant <> OBJECT_RUINmobilew1 ->
  Radar_type_filter [variant] (cbot_base_type oType) = false.
Proof.
  intros Hr Hne.
  destruct variant; try discriminate Hr; try congruence;
    destruct oType; reflexivity.
Qed.

(** C1, as the code has it. Under [cbotTypes] the candidate's category is
    normalized and the requested set is compared as it was given. A
    candidate of any ruin variant passes the category filter of a query
    for the representative RUINmobilew1; a query for another ruin variant
    alone lets no candidate through, and [Radar] returns null for it. *)
Theorem Radar_ruin_family pObj :
  is_ruin (GetType pObj) = true ->
  Radar_oType true pObj = OBJECT_RUINmobilew1 /\
  Radar_type_filter [OBJECT_RUINmobilew1] (Radar_oType true pObj) = true /\
  forall variant,
    is_ruin variant = true -> variant <> OBJECT_RUINmobilew1 ->
    (forall candidate,
       Radar_type_filter [variant] (Radar_oType true candidate) = false) /\
    forall g_unit FILTER_NONE FILTER_ONLYLANDING FILTER_ONLYFLYING
           FILTER_FRIENDLY FILTER_ENEMY FILTER_NEUTRAL NormAngle RotateAngle
           TestAngle pThis thisPosition thisAngle angle focus minDist maxDist
           furthest filter st,
      Radar g_unit FILTER_NONE FILTER_ONLYLANDING FILTER_ONLYFLYING
        FILTER_FRIENDLY FILTER_ENEMY FILTER_NEUTRAL NormAngle RotateAngle
        TestAngle pThis thisPosition thisAngle [variant] angle focus minDist
        maxDist furthest filter true st = nullptr.
Proof.
  intros Hruin.
  assert (Hbase : Radar_oType true pObj = OBJECT_RUINmobilew1).
  { unfold Radar_oType. destruct (GetType pObj); try discriminate Hruin;
      reflexivity. }
  split; [exact Hbase|]. split; [now rewrite Hbase|].
  intros variant Hv Hne. split.
  - intros candidate. now apply ruin_variant_never_base.
  - intros. match goal with |- ?r = _ => destruct r as [o|] eqn:Hr end;
      [|reflexivity].
    apply Radar_result in Hr. destruct Hr as [k [_ Hc]].
    apply candidate_filters in Hc. destruct Hc as (_ & _ & _ & _ & Hf).
    unfold Radar_oType in Hf.
    rewrite ruin_variant_never_base in Hf by assumption. discriminate.
Qed.

Lemma Radar_ruin_family_witness :
  Radar_type_filter [OBJECT_RUINmobilew1] (Radar_oType true Sample.wreck2)
  = true.
Proof.
  destruct (Radar_ruin_family Sample.wreck2) as [_ [Hpass _]].
  - reflexivity.
  - exact Hpass.
Defined.

(** C1, the claim as stated fails: under [cbotTypes], with the requested
    set {RUINmobilew2}, a candidate of category RUINmobilew1 is stopped by
    the category filter and [Radar] returns null, although the same query
    for {RUINmobilew1} returns it. *)
Lemma Radar_ruin_variant_request_misses_representative :
  Radar_type_filter [OBJECT_RUINmobilew2] (Radar_oType true Sample.wreck1)
  = false /\
  Sample.Radar None Vector_origin zero [OBJECT_RUINmobilew2] zero
    Sample.full_circle zero Sample.hundred false 0 true
    (Sample.world [(0, Some Sample.wreck1)]) = nullptr /\
  Sample.Radar None Vector_origin zero [OBJECT_RUINmobilew1] zero
    Sample.full_circle zero Sample.hundred false 0 true
    (Sample.world [(0, Some Sample.wreck1)]) = Some Sample.wreck1.
Proof. vm_compute. repeat split. Qed.

(** What the normalization is for: the query for the representative finds
    a wreck of another variant. *)
Example Radar_any_ruin :
  Sample.Radar None Vector_origin zero [OBJECT_RUINmobilew1] zero
    Sample.full_circle zero Sample.hundred false 0 true
    (Sample.world [(0, Some Sample.wreck2)]) = Some Sample.wreck2 /\
  Sample.Radar None Vector_origin zero [OBJECT_RUINmobilew1] zero
    Sample.full_circle zero Sample.hundred false 0 false
    (Sample.world [(0, Some Sample.wreck2)]) = nullptr.
Proof. vm_compute. repeat split. Qed.

(** * Further properties of the registry *)

Lemma find_key_In k m :
  In k (ObjMap.keys m) -> exists s, ObjMap.find k m = Some s.
Proof.
  induction m as [|[k' v] m IH]; simpl; [tauto|].
  destruct (Z.eqb_spec k' k) as [->|Hne]; [now exists v|].
  intros [H|H]; [contradiction|auto].
Qed.

Lemma find_Some_key k s m : ObjMap.find k m = Some s -> In k (ObjMap.keys m).
Proof.
  intros H. apply find_In in H. unfold ObjMap.keys.
  change k with (fst (k, s)). now apply in_map.
Qed.

Lemma keys_assign_back k v m x :
  x = k \/ In x (ObjMap.keys m) -> In x (ObjMap.keys (ObjMap.assign k v m)).
Proof.
  induction m as [|[k' v'] m IH]; simpl.
  - intros [H|[]]. now left.
  - destruct (k <? k'); simpl; [intuition|].
    destruct (Z.eqb_spec k k') as [->|Hne]; simpl; intuition.
Qed.

(** [DeleteAllObjects] then [CreateObject]: whatever the registry held and
    wherever the counter stood, a creation with an unset identifier made
    right after [DeleteAllObjects] passes its assertion, keeps the new
    object under key 0 as the only entry, and leaves the counter at 1. *)
Theorem DeleteAllObjects_then_CreateObject factory params object st :
  p_id params < 0 ->
  factory (set_id params 0) = Some object ->
  CreateObject factory params (DeleteAllObjects st)
  = (Returned object,
     mkManager [(0, Some object)] 1 (m_shouldCleanRemovedObjects st)) /\
  GetObjectById 0
    (snd (CreateObject factory params (DeleteAllObjects st)))
  = Some object.
Proof.
  intros Hid Hmade. apply Z.ltb_lt in Hid.
  assert (H : CreateObject factory params (DeleteAllObjects st)
              = (Returned object,
                 mkManager [(0, Some object)] 1
                           (m_shouldCleanRemovedObjects st))).
  { unfold CreateObject, DeleteAllObjects. rewrite Hid. simpl.
    now rewrite Hmade. }
  split; [exact H|]. rewrite H. reflexivity.
Qed.

Lemma DeleteAllObjects_then_CreateObject_witness :
  CreateObject Sample.factory (Sample.params (OBJECT_OTHER 1) (-1))
    (DeleteAllObjects Sample.pending)
  = (Returned (Sample.factory_object 0),
     mkManager [(0, Some (Sample.factory_object 0))] 1 true).
Proof.
  apply (DeleteAllObjects_then_CreateObject Sample.factory
           (Sample.params (OBJECT_OTHER 1) (-1))
           (Sample.factory_object 0) Sample.pending).
  - simpl. lia.
  - reflexivity.
Defined.

(** One call keeps the keys below the counter, the counter being bounded
    by the number of calls made. *)
Lemma perform_below_counter factory c st n :
  (forall params, c = CallCreateObject params -> p_id params < 0) ->
  0 <= n < Int32.INT_MAX ->
  keys_below_counter st -> 0 <= m_nextId st <= n ->
  keys_below_counter (perform factory st c) /\
  0 <= m_nextId (perform factory st c) <= n + 1.
Proof.
  intros Hunset Hn Hbelow Hc. destruct c as [params|instance| |]; simpl.
  - specialize (Hunset params eq_refl). apply Z.ltb_lt in Hunset.
    unfold CreateObject. rewrite Hunset. simpl.
    assert (Hw : Int32.wrap (m_nextId st + 1) = m_nextId st + 1).
    { apply counter_advances. lia. }
    destruct (ObjMap.find (m_nextId st) (m_objects st)) as [s|]; simpl.
    + rewrite Hw. split; [|lia]. intros k Hk. simpl.
      apply Hbelow in Hk. lia.
    + destruct (factory _) as [o|]; simpl; rewrite Hw; (split; [|lia]).
      * intros k Hk. simpl in *. apply keys_assign_In in Hk.
        destruct Hk as [->|Hk]; [lia|]. apply Hbelow in Hk. lia.
      * intros k Hk. simpl in *. apply Hbelow in Hk. lia.
  - unfold DeleteObject.
    destruct (ObjMap.find _ _) as [s|]; simpl; (split; [|lia]); auto.
    intros k Hk. simpl in *. rewrite keys_reset in Hk. auto.
  - split; [|simpl; lia]. intros k Hk. simpl.
    apply Hbelow. destruct st as [[|[k' [o|]] rest] nx b]; simpl in *; auto.
  - split; [|simpl; lia]. intros k [].
Qed.

Lemma perform_all_below_counter factory calls : forall st n,
  (forall params, In (CallCreateObject params) calls -> p_id params < 0) ->
  0 <= n -> n + Z.of_nat (List.length calls) <= Int32.INT_MAX ->
  keys_below_counter st -> 0 <= m_nextId st <= n ->
  keys_below_counter (perform_all factory calls st) /\
  0 <= m_nextId (perform_all factory calls st)
    <= n + Z.of_nat (List.length calls).
Proof.
  induction calls as [|c calls IH]; intros st n Hunset Hn Hlen Hbelow Hc.
  - simpl. split; [assumption|lia].
  - simpl fold_left. unfold perform_all. simpl fold_left.
    change (List.length (c :: calls)) with (S (List.length calls)) in *.
    rewrite Nat2Z.inj_succ in *.
    destruct (perform_below_counter factory c st n) as [Hb' Hc']; auto.
    + intros params ->. apply Hunset. now left.
    + lia.
    + destruct (IH (perform factory st c) (n + 1)) as [Hb'' Hc'']; auto.
      * intros params Hin. apply Hunset. now right.
      * lia.
      * lia.
      * split; [exact Hb''|]. unfold perform_all in Hc''. lia.
Qed.

(** Identifiers from the counter alone. On a new manager, through any
    sequence of calls (fewer than 2^31) whose creations all leave the
    identifier unset, no creation fails the assertion of line 128: the key
    it is about to use is free, all keys being below the counter. *)
Theorem CreateObject_unset_never_asserts factory before params after :
  (forall p, In (CallCreateObject p)
               (before ++ CallCreateObject params :: after) ->
             p_id p < 0) ->
  Z.of_nat (List.length (before ++ CallCreateObject params :: after))
  <= Int32.INT_MAX ->
  let st := perform_all factory before CObjectManager_new in
  keys_below_counter st /\
  ObjMap.find (m_nextId st) (m_objects st) = None /\
  fst (CreateObject factory params st) <> AssertionFailed.
Proof.
  intros Hunset Hlen st. rewrite length_app in Hlen. simpl in Hlen.
  destruct (perform_all_below_counter factory before CObjectManager_new 0)
    as [Hbelow Hcount].
  - intros p Hin. apply Hunset. apply in_or_app. now left.
  - lia.
  - lia.
  - intros k [].
  - simpl. lia.
  - fold st in Hbelow, Hcount.
    assert (Hfree : ObjMap.find (m_nextId st) (m_objects st) = None).
    { apply find_not_key. intros Hin. apply Hbelow in Hin. lia. }
    split; [exact Hbelow|]. split; [exact Hfree|].
    assert (Hid : (p_id params <? 0) = true).
    { apply Z.ltb_lt. apply Hunset. apply in_or_app. right. now left. }
    unfold CreateObject. rewrite Hid. simpl. rewrite Hfree.
    destruct (factory _); simpl; discriminate.
Qed.

Lemma CreateObject_unset_never_asserts_witness :
  fst (CreateObject Sample.factory (Sample.params (OBJECT_OTHER 1) (-1))
         (perform_all Sample.factory
            [CallCreateObject (Sample.params (OBJECT_OTHER 1) (-1));
             CallDeleteObject (Sample.factory_object 0)]
            CObjectManager_new))
  <> AssertionFailed.
Proof.
  destruct (CreateObject_unset_never_asserts Sample.factory
              [CallCreateObject (Sample.params (OBJECT_OTHER 1) (-1));
               CallDeleteObject (Sample.factory_object 0)]
              (Sample.params (OBJECT_OTHER 1) (-1)) [])
    as [_ [_ H]].
  - intros p [H|[H|[H|[]]]]; inversion H; simpl; lia.
  - unfold Int32.INT_MAX. simpl. lia.
  - exact H.
Defined.

(** An explicit identifier does not move the counter. After a successful
    creation under an explicit identifier equal to the counter's value, a
    creation with an unset identifier fails the assertion of line 128,
    the counter having advanced all the same. *)
Theorem CreateObject_explicit_id_blocks_counter factory params object
    params2 st :
  p_id params = m_nextId st ->
  0 <= m_nextId st < Int32.INT_MAX ->
  ObjMap.find (m_nextId st) (m_objects st) = None ->
  factory params = Some object ->
  p_id params2 < 0 ->
  let st1 := snd (CreateObject factory params st) in
  fst (CreateObject factory params st) = Returned object /\
  m_nextId st1 = m_nextId st /\
  fst (CreateObject factory params2 st1) = AssertionFailed /\
  m_nextId (snd (CreateObject factory params2 st1)) = m_nextId st + 1.
Proof.
  intros Hid Hrange Hfree Hmade Hid2 st1.
  assert (Hge : (p_id params <? 0) = false) by (apply Z.ltb_ge; lia).
  assert (Hst1 : CreateObject factory params st
                 = (Returned object,
                    mkManager (ObjMap.assign (m_nextId st) (Some object)
                                             (m_objects st))
                              (m_nextId st)
                              (m_shouldCleanRemovedObjects st))).
  { unfold CreateObject. rewrite Hge. rewrite Hid, Hfree, Hmade.
    reflexivity. }
  subst st1. rewrite Hst1. simpl.
  apply Z.ltb_lt in Hid2. unfold CreateObject. rewrite Hid2. simpl.
  rewrite find_assign_same. simpl.
  repeat split. now apply counter_advances.
Qed.

Lemma CreateObject_explicit_id_blocks_counter_witness :
  fst (CreateObject Sample.factory (Sample.params (OBJECT_OTHER 1) (-1))
         (snd (CreateObject Sample.factory
                 (Sample.params (OBJECT_OTHER 1) 0) CObjectManager_new)))
  = AssertionFailed.
Proof.
  destruct (CreateObject_explicit_id_blocks_counter Sample.factory
              (Sample.params (OBJECT_OTHER 1) 0) (Sample.factory_object 0)
              (Sample.params (OBJECT_OTHER 1) (-1)) CObjectManager_new)
    as [_ [_ [H _]]].
  - reflexivity.
  - unfold Int32.INT_MAX. simpl. lia.
  - reflexivity.
  - reflexivity.
  - simpl. lia.
  - exact H.
Defined.

Lemma live_reset k m o :
  map_sorted m -> ids_agree m ->
  (In o (ObjMap.live (ObjMap.reset k m)) <->
   In o (ObjMap.live m) /\ GetID o <> k).
Proof.
  intros Hs Hi. rewrite !In_live. split.
  - intros [k' Hin]. pose proof (In_reset _ _ _ _ Hin) as Hin0.
    split; [now exists k'|].
    rewrite (Hi _ _ Hin0). intros ->.
    assert (Hs' : map_sorted (ObjMap.reset k m)).
    { unfold map_sorted. now rewrite keys_reset. }
    pose proof (In_sorted_find _ _ _ Hs' Hin) as Hf.
    pose proof (In_sorted_find _ _ _ Hs Hin0) as Hf0.
    rewrite (find_reset_same _ _ _ Hf0) in Hf. discriminate.
  - intros [[k' Hin] Hne]. exists k'.
    assert (Hk : k' <> k) by (rewrite <- (Hi _ _ Hin); exact Hne).
    apply find_In. rewrite find_reset_other by assumption.
    now apply In_sorted_find.
Qed.

(** What [DeleteObject] changes. It returns true exactly when the
    identifier of its argument is a key. The keys (hence the size and the
    ranks) and the counter are as before, every other key has the slot it
    had, and the owned objects are those of before whose identifier is
    not the argument's. *)
Theorem DeleteObject_frame st e :
  registry_ok st ->
  let st' := snd (DeleteObject e st) in
  (fst (DeleteObject e st) = true <->
   In (GetID e) (ObjMap.keys (m_objects st))) /\
  ObjMap.keys (m_objects st') = ObjMap.keys (m_objects st) /\
  m_nextId st' = m_nextId st /\
  (forall k, k <> GetID e ->
     ObjMap.find k (m_objects st') = ObjMap.find k (m_objects st)) /\
  (forall o, In o (GetAllObjects st') <->
             In o (GetAllObjects st) /\ GetID o <> GetID e).
Proof.
  intros [Hs Hi] st'. subst st'. unfold DeleteObject, GetAllObjects.
  destruct (ObjMap.find (GetID e) (m_objects st)) as [s|] eqn:Hfind; simpl.
  - split; [split; [intros _; eapply find_Some_key; eauto|reflexivity]|].
    split; [apply keys_reset|]. split; [reflexivity|].
    split; [intros k Hk; now apply find_reset_other|].
    intros o. now apply live_reset.
  - split.
    { split; [discriminate|]. intros Hin. apply find_key_In in Hin.
      destruct Hin as [s Hs']. congruence. }
    split; [reflexivity|]. split; [reflexivity|].
    split; [reflexivity|]. intros o. split; [|tauto].
    intros Hlive. split; [exact Hlive|].
    intros Heq. apply In_live in Hlive. destruct Hlive as [k Hin].
    pose proof (Hi _ _ Hin) as Hk. rewrite Heq in Hk. subst k.
    apply In_sorted_find in Hin; [|assumption]. congruence.
Qed.

Lemma DeleteObject_frame_witness :
  let st := mkManager [(0, Some (Sample.factory_object 0));
                       (1, Some (Sample.factory_object 1))] 2 false in
  ObjMap.keys (m_objects (snd (DeleteObject (Sample.factory_object 0) st)))
  = [0; 1].
Proof.
  intros st.
  destruct (DeleteObject_frame st (Sample.factory_object 0))
    as [_ [Hkeys _]].
  - split.
    + repeat constructor; simpl; lia.
    + intros k o [H|[H|[]]]; inversion H; reflexivity.
  - exact Hkeys.
Defined.

(** [GetObjectByRank] against [GetObjectById]. A rank at or past the size
    gives null; a rank inside gives what [GetObjectById] gives for the key
    of that rank, which is null when the slot of that rank is empty: empty
    slots count in the ranks. *)
Theorem GetObjectByRank_GetObjectById st rank k s :
  map_sorted (m_objects st) ->
  nth_error (m_objects st) rank = Some (k, s) ->
  0 <= k <= Int32.INT_MAX ->
  GetObjectByRank rank st = s /\
  GetObjectByRank rank st = GetObjectById k st /\
  forall rank',
    (List.length (m_objects st) <= rank')%nat ->
    GetObjectByRank rank' st = nullptr.
Proof.
  intros Hs Hnth Hk. unfold GetObjectByRank. rewrite Hnth.
  split; [reflexivity|]. split.
  - rewrite GetObjectById_find by assumption.
    apply nth_error_In in Hnth.
    now rewrite (In_sorted_find _ _ _ Hs Hnth).
  - intros rank' Hlen. apply nth_error_None in Hlen. now rewrite Hlen.
Qed.

Lemma GetObjectByRank_GetObjectById_witness :
  GetObjectByRank 1 Sample.pending = nullptr /\
  GetObjectByRank 1 Sample.pending = GetObjectById 1 Sample.pending.
Proof.
  destruct (GetObjectByRank_GetObjectById Sample.pending 1 1 None)
    as [H1 [H2 _]].
  - repeat constructor; simpl; lia.
  - reflexivity.
  - unfold Int32.INT_MAX. simpl. lia.
  - split; [exact H1|exact H2].
Defined.

(** A cleanup cannot be seen through the lookups: [GetObjectById] answers
    the same for every identifier, [GetAllObjects] lists the same objects,
    [TeamExists] answers the same for every team, and the counter stays;
    the flag is cleared. *)
Theorem CleanRemovedObjects_unobservable st :
  map_sorted (m_objects st) ->
  let st' := CleanRemovedObjects st in
  (forall id, GetObjectById id st' = GetObjectById id st) /\
  GetAllObjects st' = GetAllObjects st /\
  (forall team, TeamExists team st' = TeamExists team st) /\
  m_nextId st' = m_nextId st /\
  m_shouldCleanRemovedObjects st' = false.
Proof.
  intros Hs st'. subst st'.
  assert (Hlive : GetAllObjects (CleanRemovedObjects st) = GetAllObjects st).
  { destruct st as [[|[k [o|]] rest] n b]; reflexivity. }
  split; [|split; [exact Hlive|split; [|split; reflexivity]]].
  - intros id. unfold GetObjectById.
    destruct st as [[|[k [o|]] rest] n b]; simpl; auto.
    destruct (Z.eqb_spec k (Int32.of_unsigned id)) as [Heq|Hne]; auto.
    rewrite <- Heq. now rewrite (sorted_tail_find _ _ _ Hs).
  - intros team. unfold TeamExists. now rewrite Hlive.
Qed.

Lemma CleanRemovedObjects_unobservable_witness :
  GetAllObjects
    (CleanRemovedObjects
       (mkManager [(0, None); (1, Some (Sample.factory_object 1))] 2 true))
  = [Sample.factory_object 1].
Proof.
  destruct (CleanRemovedObjects_unobservable
              (mkManager [(0, None); (1, Some (Sample.factory_object 1))]
                         2 true))
    as [_ [H _]].
  - repeat constructor; simpl; lia.
  - exact H.
Defined.




(** [GetObjectsOfTeam] lists exactly the owned objects of the team, active
    or not; and for a team other than 0, [TeamExists] is true exactly when
    one of them is active. *)
Theorem GetObjectsOfTeam_spec team st :
  (forall o, In o (GetObjectsOfTeam team st) <->
             (exists k, In (k, Some o) (m_objects st)) /\ GetTeam o = team) /\
  (TeamExists team st = true <->
   team = 0 \/
   exists o, In o (GetObjectsOfTeam team st) /\ GetActive o = true).
Proof.
  assert (Hin : forall o, In o (GetObjectsOfTeam team st) <->
                 (exists k, In (k, Some o) (m_objects st)) /\
                 GetTeam o = team).
  { intros o. unfold GetObjectsOfTeam, GetAllObjects.
    rewrite filter_In, In_live, Z.eqb_eq. reflexivity. }
  split; [exact Hin|].
  unfold TeamExists. destruct (Z.eqb_spec team 0) as [->|Hne].
  - split; auto.
  - rewrite TeamExists_loop_true. split.
    + intros [o [Ho [Ha Ht]]]. right. exists o. split; [|exact Ha].
      apply Hin. split; [|exact Ht]. now apply In_live.
    + intros [Heq|[o [Ho Ha]]]; [contradiction|].
      apply Hin in Ho. destruct Ho as [Hown Ht].
      exists o. repeat split; auto. now apply In_live.
Qed.

Lemma live_length m : (List.length (ObjMap.live m) <= List.length m)%nat.
Proof.
  induction m as [|[k [o|]] m IH]; simpl; lia.
Qed.

Section CountFacts.
Variable ObjectInterfaceType : Type.
Variable Implements : CObject -> ObjectInterfaceType -> bool.

Lemma CountObjectsImplementing_loop_count interface objects : forall count,
  0 <= count ->
  count + Z.of_nat (List.length objects) <= Int32.INT_MAX ->
  CountObjectsImplementing_loop ObjectInterfaceType Implements interface
    objects count
  = count + Z.of_nat (List.length
                        (filter (fun o => Implements o interface) objects)).
Proof.
  induction objects as [|object rest IH]; intros count H0 Hmax; simpl.
  - lia.
  - change (List.length (object :: rest)) with (S (List.length rest)) in Hmax.
    rewrite Nat2Z.inj_succ in Hmax.
    destruct (Implements object interface).
    + rewrite counter_advances by lia. rewrite IH by lia.
      change (List.length (object :: ?l)) with (S (List.length l)).
      cbn [List.length]. rewrite Nat2Z.inj_succ. lia.
    + apply IH; lia.
Qed.

(** [CountObjectsImplementing] in a registry of at most INT_MAX slots: the
    result is the number of owned objects that implement the interface,
    empty slots not counted; it lies between 0 and the number of slots and
    is 0 exactly when no owned object implements the interface. *)
Theorem CountObjectsImplementing_spec interface st :
  Z.of_nat (List.length (m_objects st)) <= Int32.INT_MAX ->
  let count :=
    CountObjectsImplementing ObjectInterfaceType Implements interface st in
  count = Z.of_nat (List.length
                      (filter (fun o => Implements o interface)
                              (GetAllObjects st))) /\
  0 <= count <= Z.of_nat (List.length (m_objects st)) /\
  (count = 0 <->
   forall k o, In (k, Some o) (m_objects st) ->
               Implements o interface = false).
Proof.
  intros Hmax count. subst count. unfold CountObjectsImplementing.
  pose proof (live_length (m_objects st)) as Hlive.
  rewrite CountObjectsImplementing_loop_count; unfold GetAllObjects;
    [|lia|lia].
  rewrite Z.add_0_l.
  pose proof (filter_length_le (fun o => Implements o interface)
                (ObjMap.live (m_objects st))) as Hle.
  split; [reflexivity|]. split; [lia|].
  split.
  - intros Hzero k o Hin.
    destruct (Implements o interface) eqn:Himpl; [|reflexivity].
    assert (Hf : In o (filter (fun o => Implements o interface)
                              (ObjMap.live (m_objects st)))).
    { apply filter_In. split; [|exact Himpl]. apply In_live. now exists k. }
    destruct (filter _ _); [contradiction|simpl in Hzero; lia].
  - intros Hnone.
    destruct (filter (fun o => Implements o interface)
                     (ObjMap.live (m_objects st))) as [|o l] eqn:Hf;
      [reflexivity|].
    assert (Hin : In o (filter (fun o => Implements o interface)
                               (ObjMap.live (m_objects st)))).
    { rewrite Hf. now left. }
    apply filter_In in Hin. destruct Hin as [Hin Himpl].
    apply In_live in Hin. destruct Hin as [k Hin].
    rewrite (Hnone _ _ Hin) in Himpl. discriminate.
Qed.
End CountFacts.

Lemma CountObjectsImplementing_spec_witness :
  CountObjectsImplementing unit (fun o _ => GetActive o) tt Sample.pending
  = 1.
Proof.
  destruct (CountObjectsImplementing_spec unit (fun o _ => GetActive o) tt
              Sample.pending) as [H _].
  - unfold Int32.INT_MAX. simpl. lia.
  - exact H.
Defined.

Lemma perform_ok factory c st :
  (forall p o, factory p = Some o -> GetID o = p_id p) ->
  registry_ok st -> registry_ok (perform factory st c).
Proof.
  intros Hf Hok. destruct c as [params|instance| |]; simpl.
  - now apply CreateObject_ok.
  - now apply DeleteObject_ok.
  - now apply CleanRemovedObjects_ok.
  - split; [constructor|intros k o []].
Qed.

Lemma perform_all_ok factory calls : forall st,
  (forall p o, factory p = Some o -> GetID o = p_id p) ->
  registry_ok st -> registry_ok (perform_all factory calls st).
Proof.
  induction calls as [|c calls IH]; intros st Hf Hok; [exact Hok|].
  unfold perform_all. simpl. apply IH; [exact Hf|].
  now apply perform_ok.
Qed.

(** An invariant of the states the manager reaches. With a factory that
    builds each object under the identifier it is given, after any
    sequence of creations, deletions, cleanups and full teardowns on a new
    manager, every owned object sits under its own identifier:
    [GetObjectById] at the identifier of an owned object returns that
    object, and two owned objects with the same identifier are one. *)
Theorem reachable_objects_under_their_ids factory calls :
  (forall p o, factory p = Some o -> GetID o = p_id p) ->
  let st := perform_all factory calls CObjectManager_new in
  (forall k o, In (k, Some o) (m_objects st) ->
     GetID o = k /\
     (Int32.in_range k -> GetObjectById_of o st = Some o)) /\
  (forall o1 o2, In o1 (GetAllObjects st) -> In o2 (GetAllObjects st) ->
     GetID o1 = GetID o2 -> o1 = o2).
Proof.
  intros Hf st.
  destruct (perform_all_ok factory calls CObjectManager_new Hf
              CObjectManager_new_ok) as [Hs Hi].
  fold st in Hs, Hi.
  split.
  - intros k o Hin. pose proof (Hi _ _ Hin) as Hk. split; [exact Hk|].
    intros Hr. rewrite GetObjectById_of_find by (rewrite Hk; exact Hr).
    rewrite Hk. now rewrite (In_sorted_find _ _ _ Hs Hin).
  - intros o1 o2 H1 H2 Heq. unfold GetAllObjects in *.
    apply In_live in H1. apply In_live in H2.
    destruct H1 as [k1 H1]. destruct H2 as [k2 H2].
    pose proof (Hi _ _ H1) as E1. pose proof (Hi _ _ H2) as E2.
    assert (k1 = k2) by congruence. subst k2.
    apply (In_sorted_find _ _ _ Hs) in H1.
    apply (In_sorted_find _ _ _ Hs) in H2. congruence.
Qed.

Lemma Sample_factory_id p o :
  Sample.factory p = Some o -> GetID o = p_id p.
Proof.
  unfold Sample.factory. destruct (p_type p); try discriminate;
    intros H; inversion H; reflexivity.
Qed.

Lemma reachable_objects_under_their_ids_witness :
  let st := perform_all Sample.factory
              [CallCreateObject (Sample.params (OBJECT_OTHER 1) (-1));
               CallCreateObject (Sample.params (OBJECT_OTHER 1) 5);
               CallDeleteObject (Sample.factory_object 0);
               CallCleanRemovedObjects]
              CObjectManager_new in
  GetObjectById_of (Sample.factory_object 5) st
  = Some (Sample.factory_object 5).
Proof.
  intros st.
  destruct (reachable_objects_under_their_ids Sample.factory
              [CallCreateObject (Sample.params (OBJECT_OTHER 1) (-1));
               CallCreateObject (Sample.params (OBJECT_OTHER 1) 5);
               CallDeleteObject (Sample.factory_object 0);
               CallCleanRemovedObjects])
    as [H _].
  - exact Sample_factory_id.
  - destruct (H 5 (Sample.factory_object 5)) as [_ Hfound].
    + left. reflexivity.
    + apply Hfound.
      unfold Int32.in_range, Int32.INT_MIN, Int32.INT_MAX. simpl. lia.
Defined.

(** * Further properties of the radar *)

(** ** The order of distances *)

Ltac order_cases :=
  repeat match goal with
  | H : context [Z.compare ?a ?b] |- _ => destruct (Z.compare_spec a b); subst
  | |- context [Z.compare ?a ?b] => destruct (Z.compare_spec a b); subst
  | H : context [Pos.compare ?a ?b] |- _ =>
      destruct (Pos.compare_spec a b); subst
  | |- context [Pos.compare ?a ?b] => destruct (Pos.compare_spec a b); subst
  end.

Lemma lt_irrefl a : lt a a = false.
Proof.
  unfold lt, SFltb, SFcompare.
  destruct a as [s|s| |s m e]; try destruct s; try reflexivity;
    rewrite Z.compare_refl;
    change (Pos.compare_cont Eq m m) with (Pos.compare m m);
    rewrite Pos.compare_refl; reflexivity.
Qed.

Lemma lt_trans a b c : lt a b = true -> lt b c = true -> lt a c = true.
Proof.
  unfold lt, SFltb, SFcompare.
  destruct a as [sa|sa| |sa ma ea], b as [sb|sb| |sb mb eb],
           c as [sc|sc| |sc mc ec];
    try destruct sa; try destruct sb; try destruct sc; simpl;
    try discriminate; try reflexivity;
    change (Pos.compare_cont Eq) with Pos.compare;
    intros H1 H2; order_cases; simpl in *;
    try discriminate; try reflexivity; try lia.
Qed.

Lemma better_irrefl furthest a : better furthest a a = false.
Proof. unfold better, gt. destruct furthest; apply lt_irrefl. Qed.

Lemma better_trans furthest a b c :
  better furthest a b = true -> better furthest b c = true ->
  better furthest a c = true.
Proof.
  unfold better, gt. destruct furthest; intros H1 H2.
  - eapply lt_trans; eauto.
  - eapply lt_trans; eauto.
Qed.

Lemma fold_left_ext {A B : Type} (f g : A -> B -> A) l : forall a,
  (forall a b, f a b = g a b) -> fold_left f l a = fold_left g l a.
Proof.
  induction l as [|b l IH]; intros a H; simpl; [reflexivity|].
  rewrite H. now apply IH.
Qed.

Section RadarMore.
Variable g_unit : float.
Variables FILTER_NONE FILTER_ONLYLANDING FILTER_ONLYFLYING : Z.
Variables FILTER_FRIENDLY FILTER_ENEMY FILTER_NEUTRAL : Z.
Variable NormAngle : float -> float.
Variable RotateAngle : float -> float -> float.
Variable TestAngle : float -> float -> float -> bool.
Variable pThis : CObjectPtr.
Variable thisPosition : Vector.
Variable thisAngle : float.
Variable type : list ObjectType.
Variables angle focus minDist maxDist : float.
Variable furthest : bool.
Variable filter : Z.
Variable cbotTypes : bool.

Local Notation "'candidate'" :=
  (Radar_candidate g_unit FILTER_NONE FILTER_ONLYLANDING FILTER_ONLYFLYING
     FILTER_FRIENDLY FILTER_ENEMY FILTER_NEUTRAL NormAngle RotateAngle
     TestAngle pThis thisPosition thisAngle type angle focus minDist maxDist
     filter cbotTypes).
Local Notation "'step'" :=
  (Radar_step g_unit FILTER_NONE FILTER_ONLYLANDING FILTER_ONLYFLYING
     FILTER_FRIENDLY FILTER_ENEMY FILTER_NEUTRAL NormAngle RotateAngle
     TestAngle pThis thisPosition thisAngle type angle focus minDist maxDist
     furthest filter cbotTypes).
Local Notation "'radar'" :=
  (Radar g_unit FILTER_NONE FILTER_ONLYLANDING FILTER_ONLYFLYING
     FILTER_FRIENDLY FILTER_ENEMY FILTER_NEUTRAL NormAngle RotateAngle
     TestAngle pThis thisPosition thisAngle type angle focus minDist maxDist
     furthest filter cbotTypes).
Local Notation "'score'" := (Radar_score thisPosition furthest).
Local Notation "'init'" := (Radar_init furthest).
Local Notation "'dist'" := (Radar_d thisPosition).
Local Notation "'sentinel'" := (if furthest then zero else sentinel_nearest).

(** The filters of lines 320-348, for a candidate. *)
Lemma candidate_late_filters k o :
  candidate (k, Some o) = Some o ->
  Radar_flying_filter FILTER_ONLYLANDING FILTER_ONLYFLYING filter o = true /\
  Radar_team_filter filter o = true /\
  Radar_enemy_filter FILTER_NONE FILTER_FRIENDLY FILTER_ENEMY FILTER_NEUTRAL
    pThis filter o = true /\
  Radar_distance_filter g_unit thisPosition minDist maxDist o = true /\
  Radar_angle_filter NormAngle RotateAngle TestAngle thisPosition thisAngle
    angle focus o = true.
Proof.
  unfold Radar_candidate. cbn [snd].
  destruct (same_object (Some o) pThis); [discriminate|].
  destruct (IsObjectBeingTransported o); [discriminate|].
  destruct (negb (GetActive o)); [discriminate|].
  destruct (GetProxyActivate o); [discriminate|].
  destruct (negb (Radar_type_filter _ _)); [discriminate|].
  destruct (Radar_flying_filter _ _ _ _); [|discriminate].
  destruct (Radar_team_filter _ _); [|discriminate].
  destruct (Radar_enemy_filter _ _ _ _ _ _ _); [|discriminate].
  destruct (Radar_distance_filter _ _ _ _ _); [|discriminate].
  destruct (Radar_angle_filter _ _ _ _ _ _ _ _); [|discriminate].
  auto.
Qed.

Lemma score_init_sentinel : fst init = sentinel.
Proof. unfold Radar_init. destruct furthest; reflexivity. Qed.

Lemma score_better o acc :
  score o acc
  = if better furthest (dist o) (fst acc) then (dist o, Some o) else acc.
Proof.
  unfold Radar_score, better.
  destruct furthest; simpl; rewrite ?orb_false_r; reflexivity.
Qed.

Local Notation "'best_so_far'" :=
  (Radar_best_so_far furthest dist candidate).

Lemma step_best_so_far seen acc it :
  best_so_far seen acc -> best_so_far (seen ++ [it]) (step acc it).
Proof.
  unfold Radar_best_so_far. cbv zeta.
  intros (Hnone & Hsome & Hseen). unfold Radar_step.
  destruct (candidate it) as [c|] eqn:Hc.
  - rewrite score_better.
    destruct (better furthest (dist c) (fst acc)) eqn:Hb; simpl.
    + split; [discriminate|]. split.
      * intros r Hr. inversion Hr; subst r. split; [reflexivity|].
        destruct (snd acc) as [r0|] eqn:Hacc.
        -- destruct (Hsome r0 eq_refl) as [Hd Hs].
           rewrite Hd in Hb. eapply better_trans; eauto.
        -- now rewrite <- (Hnone eq_refl).
      * intros it' c' Hin Hc'. apply in_app_or in Hin.
        destruct Hin as [Hin|[<-|[]]].
        -- destruct (better furthest (dist c') (dist c)) eqn:Hb';
             [|reflexivity].
           rewrite <- (Hseen _ _ Hin Hc'). symmetry.
           eapply better_trans; eauto.
        -- rewrite Hc in Hc'. inversion Hc'; subst. apply better_irrefl.
    + split; [exact Hnone|]. split; [exact Hsome|].
      intros it' c' Hin Hc'. apply in_app_or in Hin.
      destruct Hin as [Hin|[<-|[]]]; [eauto|].
      rewrite Hc in Hc'. inversion Hc'; subst. exact Hb.
  - split; [exact Hnone|]. split; [exact Hsome|].
    intros it' c' Hin Hc'. apply in_app_or in Hin.
    destruct Hin as [Hin|[<-|[]]]; [eauto|congruence].
Qed.

Lemma loop_best_so_far l : forall seen acc,
  best_so_far seen acc -> best_so_far (seen ++ l) (fold_left step l acc).
Proof.
  induction l as [|it l IH]; intros seen acc H; simpl.
  - now rewrite app_nil_r.
  - change (it :: l) with ([it] ++ l). rewrite app_assoc.
    apply IH. now apply step_best_so_far.
Qed.

Lemma Radar_loop_best_so_far st :
  best_so_far (m_objects st)
    (Radar_loop g_unit FILTER_NONE FILTER_ONLYLANDING FILTER_ONLYFLYING
       FILTER_FRIENDLY FILTER_ENEMY FILTER_NEUTRAL NormAngle RotateAngle
       TestAngle pThis thisPosition thisAngle type angle focus minDist
       maxDist furthest filter cbotTypes (m_objects st)).
Proof.
  unfold Radar_loop.
  apply (loop_best_so_far (m_objects st) [] init).
  unfold Radar_best_so_far. cbv zeta. split; [|split].
  - intros _. apply score_init_sentinel.
  - discriminate.
  - intros it c [].
Qed.

(** Who can be returned. The object [Radar] returns is owned by a slot of
    the registry, is active, is not being transported and is no proxy;
    and in a registry that keeps its objects under their identifiers and
    owns the requester, it is not the requester. *)
Theorem Radar_result_eligible st r :
  radar st = Some r ->
  (exists k, In (k, Some r) (m_objects st)) /\
  GetActive r = true /\
  IsObjectBeingTransported r = false /\
  GetProxyActivate r = false /\
  (registry_ok st -> requester_held pThis st ->
   Some r <> pThis /\ same_object (Some r) pThis = false).
Proof.
  intros Hr. apply Radar_result in Hr. destruct Hr as [k [Hin Hc]].
  apply candidate_filters in Hc.
  destruct Hc as (Hthis & Htr & Hact & Hproxy & _).
  split; [now exists k|]. repeat (split; [assumption|]).
  intros Hok Hheld. split; [|exact Hthis].
  intros Heq. apply (same_object_exact pThis st k (Some r) Hok Hheld Hin) in Heq.
  congruence.
Qed.

(** The distance band. The object [Radar] returns is neither nearer than
    [minDist * g_unit] nor further than [maxDist * g_unit], by the
    comparisons of line 345. *)
Theorem Radar_result_in_band st r :
  radar st = Some r ->
  lt (dist r) (mul minDist g_unit) = false /\
  gt (dist r) (mul maxDist g_unit) = false.
Proof.
  intros Hr. apply Radar_result in Hr. destruct Hr as [k [_ Hc]].
  apply candidate_late_filters in Hc. destruct Hc as (_ & _ & _ & Hd & _).
  unfold Radar_distance_filter, Radar_minDist, Radar_maxDist, Radar_d,
    Radar_iPos in Hd.
  apply negb_true_iff, orb_false_iff in Hd. exact Hd.
Qed.

(** The team filter. When the low byte of [filter] is not 0, the object
    [Radar] returns is of that team. *)
Theorem Radar_result_team st r :
  radar st = Some r ->
  Z.land filter 255 <> 0 ->
  GetTeam r = Z.land filter 255.
Proof.
  intros Hr Hteam. apply Radar_result in Hr. destruct Hr as [k [_ Hc]].
  apply candidate_late_filters in Hc. destruct Hc as (_ & Ht & _).
  unfold Radar_team_filter, filter_team in Ht.
  destruct (Z.eqb_spec (Z.land filter 255) 0); [contradiction|].
  destruct (Z.eqb_spec (GetTeam r) (Z.land filter 255)); [assumption|].
  discriminate.
Qed.

(** The flight filter. When the flight bits of [filter] are
    [FILTER_ONLYLANDING], a returned object that has a physics is landed;
    when they are [FILTER_ONLYFLYING], it is not. An object without
    physics is let through by both. *)
Theorem Radar_result_flying st r physics :
  radar st = Some r ->
  GetPhysics r = Some physics ->
  (filter_flying FILTER_ONLYLANDING FILTER_ONLYFLYING filter
   = FILTER_ONLYLANDING -> GetLand physics = true) /\
  (filter_flying FILTER_ONLYLANDING FILTER_ONLYFLYING filter
   = FILTER_ONLYFLYING -> GetLand physics = false).
Proof.
  intros Hr Hph. apply Radar_result in Hr. destruct Hr as [k [_ Hc]].
  apply candidate_late_filters in Hc. destruct Hc as (Hf & _).
  unfold Radar_flying_filter in Hf. rewrite Hph in Hf.
  split; intros Heq; rewrite Heq, ?Z.eqb_refl in Hf; simpl in Hf.
  - destruct (GetLand physics); [reflexivity|discriminate].
  - destruct (GetLand physics); [|reflexivity].
    destruct (_ =? _); discriminate.
Qed.

(** The allegiance filter, for a query with a requester. With
    [FILTER_NONE] the empty mask and the three allegiance bits non-zero and
    disjoint: a query for friends alone returns an object of the
    requester's own non-zero team, a query for enemies alone one of
    another non-zero team, a query for neutrals alone one of team 0. *)
Theorem Radar_result_allegiance st this r :
  pThis = Some this ->
  FILTER_NONE = 0 ->
  FILTER_FRIENDLY <> 0 -> FILTER_ENEMY <> 0 -> FILTER_NEUTRAL <> 0 ->
  Z.land FILTER_FRIENDLY FILTER_ENEMY = 0 ->
  Z.land FILTER_FRIENDLY FILTER_NEUTRAL = 0 ->
  Z.land FILTER_ENEMY FILTER_NEUTRAL = 0 ->
  radar st = Some r ->
  let asked := filter_enemy FILTER_FRIENDLY FILTER_ENEMY FILTER_NEUTRAL
                 filter in
  (asked = FILTER_FRIENDLY ->
   GetTeam r <> 0 /\ GetTeam r = GetTeam this) /\
  (asked = FILTER_ENEMY ->
   GetTeam r <> 0 /\ GetTeam r <> GetTeam this) /\
  (asked = FILTER_NEUTRAL -> GetTeam r = 0).
Proof.
  intros Hthis Hnone HF HE HN HFE HFN HEN Hr asked.
  apply Radar_result in Hr. destruct Hr as [k [_ Hc]].
  apply candidate_late_filters in Hc. destruct Hc as (_ & _ & Ha & _).
  unfold Radar_enemy_filter in Ha. rewrite Hthis, Hnone in Ha.
  fold asked in Ha.
  assert (HEF : Z.land FILTER_ENEMY FILTER_FRIENDLY = 0)
    by (now rewrite Z.land_comm).
  assert (HNF : Z.land FILTER_NEUTRAL FILTER_FRIENDLY = 0)
    by (now rewrite Z.land_comm).
  assert (HNE : Z.land FILTER_NEUTRAL FILTER_ENEMY = 0)
    by (now rewrite Z.land_comm).
  destruct (Z.eqb_spec (GetTeam r) 0) as [H0|H0];
    destruct (Z.eqb_spec (GetTeam r) (GetTeam this)) as [Hsame|Hsame];
    simpl in Ha; rewrite ?Z.lor_0_l in Ha;
    (split; [|split]); intros Hasked; rewrite Hasked in Ha;
    rewrite ?Z.land_diag, ?HFE, ?HFN, ?HEN, ?HEF, ?HNF, ?HNE in Ha;
    repeat match type of Ha with
           | context [?a =? 0] =>
               destruct (Z.eqb_spec a 0); try contradiction
           end;
    simpl in Ha; try discriminate; auto.
Qed.

(** The category filter. The (possibly normalized) category of the object
    [Radar] returns is listed in the requested set, or the set is empty
    and the category is not a system one. *)
Theorem Radar_result_category st r :
  radar st = Some r ->
  In (Radar_oType cbotTypes r) type \/
  (type = [] /\ is_system_type (Radar_oType cbotTypes r) = false).
Proof.
  intros Hr. apply Radar_result in Hr. destruct Hr as [k [_ Hc]].
  apply candidate_filters in Hc. destruct Hc as (_ & _ & _ & _ & Hf).
  unfold Radar_type_filter in Hf.
  destruct (type_listed type (Radar_oType cbotTypes r)) eqn:Hl.
  - left. now apply type_listed_In.
  - right. simpl in Hf.
    destruct (Z.ltb_spec 0 (Z.of_nat (List.length type))) as [Hlt|Hge];
      [discriminate|].
    assert (Hnil : List.length type = 0%nat) by lia.
    apply length_zero_iff_nil in Hnil. split; [exact Hnil|].
    rewrite Hnil in Hf. simpl in Hf.
    destruct (is_system_type _); [discriminate|reflexivity].
Qed.

(** The best match. The distance of the object [Radar] returns is
    strictly on the good side of the sentinel (below 100000 in nearest
    mode, above 0 in furthest mode), and no candidate of the registry is
    strictly nearer in nearest mode, strictly further in furthest mode. *)
Theorem Radar_result_best st r :
  radar st = Some r ->
  better furthest (dist r) sentinel = true /\
  forall k c, In (k, Some c) (m_objects st) ->
              candidate (k, Some c) = Some c ->
              better furthest (dist c) (dist r) = false.
Proof.
  intros Hr. unfold Radar in Hr.
  destruct (Radar_loop_best_so_far st) as (_ & Hsome & Hseen).
  destruct (Hsome r Hr) as [Hd Hs].
  split; [exact Hs|].
  intros k c Hin Hc. rewrite <- Hd. eapply Hseen; eauto.
Qed.

(** Not found. In a registry that keeps its objects under their
    identifiers and owns the requester, [Radar] returns null exactly when
    no candidate of the registry has a distance strictly on the good side
    of the sentinel. *)
Theorem Radar_not_found_iff st :
  registry_ok st -> requester_held pThis st ->
  (radar st = nullptr <->
   forall k c, In (k, Some c) (m_objects st) ->
               candidate (k, Some c) = Some c ->
               better furthest (dist c) sentinel = false).
Proof.
  intros _ _. split.
  - intros Hnone k c Hin Hc. unfold Radar in Hnone.
    destruct (Radar_loop_best_so_far st) as (Hn & _ & Hseen).
    rewrite <- (Hn Hnone). eapply Hseen; eauto.
  - intros Hall. destruct (radar st) as [r|] eqn:Hr; [|reflexivity].
    unfold Radar in Hr.
    destruct (Radar_loop_best_so_far st) as (_ & Hsome & _).
    destruct (Hsome r Hr) as [_ Hs].
    fold (radar st) in Hr. apply Radar_result in Hr.
    destruct Hr as [k [Hin Hc]].
    rewrite (Hall _ _ Hin Hc) in Hs. discriminate.
Qed.

Lemma candidate_empty_slot k : candidate (k, None) = None.
Proof.
  unfold Radar_candidate. cbn [snd]. destruct (same_object None pThis);
    reflexivity.
Qed.

(** Empty slots and the radar. A cleanup does not change the answer of
    any query, and after [DeleteAllObjects] every query returns null. *)
Theorem Radar_after_cleanup st :
  radar (CleanRemovedObjects st) = radar st /\
  radar (DeleteAllObjects st) = nullptr.
Proof.
  split; [|reflexivity].
  unfold Radar, Radar_loop.
  destruct st as [[|[k [o|]] rest] n b]; try reflexivity.
  assert (Hskip : step init (k, None) = init).
  { unfold Radar_step. now rewrite candidate_empty_slot. }
  cbn [CleanRemovedObjects m_objects fold_left]. now rewrite Hskip.
Qed.
End RadarMore.

(** ** Closed instances *)

Lemma Scene_ok : registry_ok Scene.st.
Proof.
  split.
  - repeat constructor; simpl; lia.
  - intros k o H. simpl in H.
    repeat (destruct H as [H|H]; [inversion H; reflexivity|]).
    contradiction.
Qed.

Lemma Scene_held : requester_held (Some Scene.requester) Scene.st.
Proof. left. reflexivity. Qed.

Lemma Radar_result_eligible_witness :
  GetActive Scene.friend = true /\
  Some Scene.friend <> Some Scene.requester /\
  same_object (Some Scene.friend) (Some Scene.requester) = false.
Proof.
  destruct (Radar_result_eligible Sample.g_unit Sample.FILTER_NONE
              Sample.FILTER_ONLYLANDING Sample.FILTER_ONLYFLYING
              Sample.FILTER_FRIENDLY Sample.FILTER_ENEMY Sample.FILTER_NEUTRAL
              Sample.NormAngle Sample.RotateAngle Sample.TestAngle
              (Some Scene.requester) Vector_origin zero [] zero
              Sample.full_circle zero Sample.hundred false 0 false
              Scene.st Scene.friend)
    as (_ & Hact & _ & _ & Hthis).
  - vm_compute. reflexivity.
  - split; [exact Hact|]. exact (Hthis Scene_ok Scene_held).
Defined.

(** Alone in the registry, the requester finds nothing. *)
Lemma Radar_not_found_iff_witness :
  Sample.Radar (Some Scene.requester) Vector_origin zero [] zero
    Sample.full_circle zero Sample.hundred false 0 false
    (mkManager [(0, Some Scene.requester)] 1 false) = nullptr.
Proof.
  apply (Radar_not_found_iff Sample.g_unit Sample.FILTER_NONE
           Sample.FILTER_ONLYLANDING Sample.FILTER_ONLYFLYING
           Sample.FILTER_FRIENDLY Sample.FILTER_ENEMY Sample.FILTER_NEUTRAL
           Sample.NormAngle Sample.RotateAngle Sample.TestAngle
           (Some Scene.requester) Vector_origin zero [] zero
           Sample.full_circle zero Sample.hundred false 0 false
           (mkManager [(0, Some Scene.requester)] 1 false)).
  - split.
    + repeat constructor.
    + intros k o [H|[]]. inversion H. reflexivity.
  - left. reflexivity.
  - intros k c [H|[]]. inversion H. subst. vm_compute. discriminate.
Defined.

Lemma Radar_result_in_band_witness :
  gt (Radar_d Vector_origin Scene.friend) (mul Sample.hundred Sample.g_unit)
  = false.
Proof.
  destruct (Radar_result_in_band Sample.g_unit Sample.FILTER_NONE
              Sample.FILTER_ONLYLANDING Sample.FILTER_ONLYFLYING
              Sample.FILTER_FRIENDLY Sample.FILTER_ENEMY Sample.FILTER_NEUTRAL
              Sample.NormAngle Sample.RotateAngle Sample.TestAngle
              (Some Scene.requester) Vector_origin zero [] zero
              Sample.full_circle zero Sample.hundred false 0 false
              Scene.st Scene.friend)
    as [_ Hmax].
  - vm_compute. reflexivity.
  - exact Hmax.
Defined.

Lemma Radar_result_team_witness : GetTeam Scene.foe = Z.land 2 255.
Proof.
  apply (Radar_result_team Sample.g_unit Sample.FILTER_NONE
           Sample.FILTER_ONLYLANDING Sample.FILTER_ONLYFLYING
           Sample.FILTER_FRIENDLY Sample.FILTER_ENEMY Sample.FILTER_NEUTRAL
           Sample.NormAngle Sample.RotateAngle Sample.TestAngle
           (Some Scene.requester) Vector_origin zero [] zero
           Sample.full_circle zero Sample.hundred false 2 false
           Scene.st Scene.foe).
  - vm_compute. reflexivity.
  - vm_compute. discriminate.
Defined.

Lemma Radar_result_flying_witness :
  filter_flying Sample.FILTER_ONLYLANDING Sample.FILTER_ONLYFLYING
    Sample.FILTER_ONLYLANDING = Sample.FILTER_ONLYLANDING /\
  GetLand (mkPhysics true) = true.
Proof.
  split; [reflexivity|].
  destruct (Radar_result_flying Sample.g_unit Sample.FILTER_NONE
              Sample.FILTER_ONLYLANDING Sample.FILTER_ONLYFLYING
              Sample.FILTER_FRIENDLY Sample.FILTER_ENEMY Sample.FILTER_NEUTRAL
              Sample.NormAngle Sample.RotateAngle Sample.TestAngle
              None Vector_origin zero [] zero
              Sample.full_circle zero Sample.hundred false
              Sample.FILTER_ONLYLANDING false
              (mkManager [(4, Some Scene.lander)] 5 false)
              Scene.lander (mkPhysics true))
    as [Hland _].
  - vm_compute. reflexivity.
  - reflexivity.
  - apply Hland. reflexivity.
Defined.

Lemma Radar_result_allegiance_witness :
  GetTeam Scene.friend <> 0 /\ GetTeam Scene.friend = GetTeam Scene.requester.
Proof.
  destruct (Radar_result_allegiance Sample.g_unit Sample.FILTER_NONE
              Sample.FILTER_ONLYLANDING Sample.FILTER_ONLYFLYING
              Sample.FILTER_FRIENDLY Sample.FILTER_ENEMY Sample.FILTER_NEUTRAL
              Sample.NormAngle Sample.RotateAngle Sample.TestAngle
              (Some Scene.requester) Vector_origin zero [] zero
              Sample.full_circle zero Sample.hundred false
              Sample.FILTER_FRIENDLY false
              Scene.st Scene.requester Scene.friend)
    as [Hfriend _].
  - reflexivity.
  - reflexivity.
  - discriminate.
  - discriminate.
  - discriminate.
  - reflexivity.
  - reflexivity.
  - reflexivity.
  - vm_compute. reflexivity.
  - apply Hfriend. reflexivity.
Defined.

(** The three allegiances in the scene: the friend, the foe and the
    neutral object stand at the same distance, and each query returns its
    own. *)
Example Radar_allegiance_scene :
  Scene.ask Sample.FILTER_FRIENDLY = Some Scene.friend /\
  Scene.ask Sample.FILTER_ENEMY = Some Scene.foe /\
  Scene.ask Sample.FILTER_NEUTRAL = Some Scene.neutral /\
  Scene.ask Sample.FILTER_NONE = Some Scene.friend.
Proof. vm_compute. repeat split. Qed.

Lemma Radar_result_category_witness :
  In (Radar_oType true Sample.wreck2) [OBJECT_RUINmobilew1] \/
  ([OBJECT_RUINmobilew1] = [] /\
   is_system_type (Radar_oType true Sample.wreck2) = false).
Proof.
  apply (Radar_result_category Sample.g_unit Sample.FILTER_NONE
           Sample.FILTER_ONLYLANDING Sample.FILTER_ONLYFLYING
           Sample.FILTER_FRIENDLY Sample.FILTER_ENEMY Sample.FILTER_NEUTRAL
           Sample.NormAngle Sample.RotateAngle Sample.TestAngle
           None Vector_origin zero [OBJECT_RUINmobilew1] zero
           Sample.full_circle zero Sample.hundred false 0 true
           (Sample.world [(0, Some Sample.wreck2)]) Sample.wreck2).
  vm_compute. reflexivity.
Defined.

Lemma Radar_result_best_witness :
  better false (Radar_d Vector_origin Scene.friend) sentinel_nearest = true.
Proof.
  destruct (Radar_result_best Sample.g_unit Sample.FILTER_NONE
              Sample.FILTER_ONLYLANDING Sample.FILTER_ONLYFLYING
              Sample.FILTER_FRIENDLY Sample.FILTER_ENEMY Sample.FILTER_NEUTRAL
              Sample.NormAngle Sample.RotateAngle Sample.TestAngle
              (Some Scene.requester) Vector_origin zero [] zero
              Sample.full_circle zero Sample.hundred false 0 false
              Scene.st Scene.friend)
    as [Hgood _].
  - vm_compute. reflexivity.
  - exact Hgood.
Defined.

(** The nearer of two objects is returned in nearest mode, the further in
    furthest mode, whatever their order in the registry. *)
Example Radar_nearest_and_furthest :
  let near := Sample.object 0 (OBJECT_OTHER 1) 0 (of_Z 10) zero in
  let far := Sample.object 1 (OBJECT_OTHER 1) 0 (of_Z 50) zero in
  let query furthest objects :=
    Sample.Radar None Vector_origin zero [] zero Sample.full_circle zero
      Sample.hundred furthest 0 false (Sample.world objects) in
  query false [(0, Some near); (1, Some far)] = Some near /\
  query true [(0, Some near); (1, Some far)] = Some far /\
  query false [(0, Some (Sample.object 0 (OBJECT_OTHER 1) 0 (of_Z 50) zero));
               (1, Some (Sample.object 1 (OBJECT_OTHER 1) 0 (of_Z 10) zero))]
  = Some (Sample.object 1 (OBJECT_OTHER 1) 0 (of_Z 10) zero).
Proof. vm_compute. repeat split. Qed.

(** ** Normalized categories and requests *)

Lemma cbot_base_type_idempotent oType :
  cbot_base_type (cbot_base_type oType) = cbot_base_type oType.
Proof. destruct oType; reflexivity. Qed.

Lemma singleton_filter requested oType :
  Radar_type_filter [requested] oType = true <-> oType = requested.
Proof.
  unfold Radar_type_filter, type_listed. simpl.
  rewrite orb_false_r, andb_true_r, andb_false_r.
  destruct (ObjectType_eqb oType requested) eqn:Heq; simpl.
  - apply ObjectType_eqb_eq in Heq. tauto.
  - split; [discriminate|]. intros H. apply ObjectType_eqb_eq in H.
    congruence.
Qed.

(** Requests for one category under [cbotTypes]. The query for the
    normalized form of a category lets through exactly the candidates
    whose category normalizes to the same: normalizing twice changes
    nothing, so a representative stands for its whole family and for no
    other category. Without [cbotTypes] the same request lets through only
    the candidates of exactly that category. *)
Theorem Radar_type_filter_family requested pObj :
  cbot_base_type (cbot_base_type requested) = cbot_base_type requested /\
  (Radar_type_filter [cbot_base_type requested] (Radar_oType true pObj)
   = true <->
   cbot_base_type (GetType pObj) = cbot_base_type requested) /\
  (Radar_type_filter [requested] (Radar_oType false pObj) = true <->
   GetType pObj = requested).
Proof.
  split; [apply cbot_base_type_idempotent|].
  split; apply singleton_filter.
Qed.

Example Radar_scrap_and_barrier_families :
  forall pObj,
    (In (GetType pObj) [OBJECT_SCRAP1; OBJECT_SCRAP2; OBJECT_SCRAP3;
                        OBJECT_SCRAP4; OBJECT_SCRAP5] ->
     Radar_type_filter [OBJECT_SCRAP1] (Radar_oType true pObj) = true) /\
    (In (GetType pObj) [OBJECT_BARRIER1; OBJECT_BARRIER2; OBJECT_BARRIER3] ->
     Radar_type_filter [OBJECT_BARRIER1] (Radar_oType true pObj) = true).
Proof.
  intros pObj. unfold Radar_oType. split; simpl; intros H;
    repeat (destruct H as [H|H]; [rewrite <- H; reflexivity|]);
    contradiction.
Qed.

(** ** The full circle and [FindNearest] *)

Section FullCircle.
Variable g_unit : float.
Variables FILTER_NONE FILTER_ONLYLANDING FILTER_ONLYFLYING : Z.
Variables FILTER_FRIENDLY FILTER_ENEMY FILTER_NEUTRAL : Z.
Variables NormAngle NormAngle' : float -> float.
Variables RotateAngle RotateAngle' : float -> float -> float.
Variables TestAngle TestAngle' : float -> float -> float -> bool.

Lemma full_circle_candidate pThis thisPosition thisAngle thisAngle' type
    angle angle' focus minDist maxDist filter cbotTypes it :
  ge focus (mul PI two) = true ->
  Radar_candidate g_unit FILTER_NONE FILTER_ONLYLANDING FILTER_ONLYFLYING
    FILTER_FRIENDLY FILTER_ENEMY FILTER_NEUTRAL NormAngle RotateAngle
    TestAngle pThis thisPosition thisAngle type angle focus minDist maxDist
    filter cbotTypes it
  = Radar_candidate g_unit FILTER_NONE FILTER_ONLYLANDING FILTER_ONLYFLYING
      FILTER_FRIENDLY FILTER_ENEMY FILTER_NEUTRAL NormAngle' RotateAngle'
      TestAngle' pThis thisPosition thisAngle' type angle' focus minDist
      maxDist filter cbotTypes it.
Proof.
  intros Hfull. unfold Radar_candidate, Radar_angle_filter. cbv zeta.
  destruct it as [k [o|]]; cbn [snd]; [|reflexivity].
  rewrite Hfull, !orb_true_r. reflexivity.
Qed.

Lemma full_circle_loop pThis thisPosition thisAngle thisAngle' type
    angle angle' focus minDist maxDist furthest filter cbotTypes objects :
  ge focus (mul PI two) = true ->
  Radar_loop g_unit FILTER_NONE FILTER_ONLYLANDING FILTER_ONLYFLYING
    FILTER_FRIENDLY FILTER_ENEMY FILTER_NEUTRAL NormAngle RotateAngle
    TestAngle pThis thisPosition thisAngle type angle focus minDist maxDist
    furthest filter cbotTypes objects
  = Radar_loop g_unit FILTER_NONE FILTER_ONLYLANDING FILTER_ONLYFLYING
      FILTER_FRIENDLY FILTER_ENEMY FILTER_NEUTRAL NormAngle' RotateAngle'
      TestAngle' pThis thisPosition thisAngle' type angle' focus minDist
      maxDist furthest filter cbotTypes objects.
Proof.
  intros Hfull. unfold Radar_loop.
  apply fold_left_ext. intros acc it. unfold Radar_step.
  now rewrite (full_circle_candidate pThis thisPosition thisAngle thisAngle'
                 type angle angle' focus minDist maxDist filter cbotTypes it
                 Hfull).
Qed.

(** The full circle. When [focus] is at least [PI * 2], the answer of
    [Radar] depends neither on the angle routines, nor on the heading
    [thisAngle], nor on the direction [angle] of the cone. *)
Theorem Radar_full_circle pThis thisPosition thisAngle thisAngle' type
    angle angle' focus minDist maxDist furthest filter cbotTypes st :
  ge focus (mul PI two) = true ->
  Radar g_unit FILTER_NONE FILTER_ONLYLANDING FILTER_ONLYFLYING
    FILTER_FRIENDLY FILTER_ENEMY FILTER_NEUTRAL NormAngle RotateAngle
    TestAngle pThis thisPosition thisAngle type angle focus minDist maxDist
    furthest filter cbotTypes st
  = Radar g_unit FILTER_NONE FILTER_ONLYLANDING FILTER_ONLYFLYING
      FILTER_FRIENDLY FILTER_ENEMY FILTER_NEUTRAL NormAngle' RotateAngle'
      TestAngle' pThis thisPosition thisAngle' type angle' focus minDist
      maxDist furthest filter cbotTypes st.
Proof.
  intros Hfull. unfold Radar. f_equal. now apply full_circle_loop.
Qed.

(** [FindNearest] asks for the full circle: its answer, from a requester
    or from a position, does not depend on the angle routines (nor, from
    a requester, on the requester's heading). *)
Theorem FindNearest_ignores_angles pThis thisPosition type maxDist
    cbotTypes st :
  FindNearest g_unit FILTER_NONE FILTER_ONLYLANDING FILTER_ONLYFLYING
    FILTER_FRIENDLY FILTER_ENEMY FILTER_NEUTRAL NormAngle RotateAngle
    TestAngle pThis type maxDist cbotTypes st
  = FindNearest g_unit FILTER_NONE FILTER_ONLYLANDING FILTER_ONLYFLYING
      FILTER_FRIENDLY FILTER_ENEMY FILTER_NEUTRAL NormAngle' RotateAngle'
      TestAngle' pThis type maxDist cbotTypes st /\
  FindNearest_at g_unit FILTER_NONE FILTER_ONLYLANDING FILTER_ONLYFLYING
    FILTER_FRIENDLY FILTER_ENEMY FILTER_NEUTRAL NormAngle RotateAngle
    TestAngle pThis thisPosition type maxDist cbotTypes st
  = FindNearest_at g_unit FILTER_NONE FILTER_ONLYLANDING FILTER_ONLYFLYING
      FILTER_FRIENDLY FILTER_ENEMY FILTER_NEUTRAL NormAngle' RotateAngle'
      TestAngle' pThis thisPosition type maxDist cbotTypes st.
Proof.
  assert (Hfull : ge (mul PI two) (mul PI two) = true) by reflexivity.
  split.
  - unfold FindNearest, Radar_from, Radar.
    destruct pThis as [this|]; f_equal; now apply full_circle_loop.
  - unfold FindNearest_at, Radar. f_equal. now apply full_circle_loop.
Qed.

(** What [FindNearest] returns. From the requester's position (the origin
    without a requester), the object returned is active, is not further
    than [maxDist * g_unit] and is nearer than 100000, and no object of
    the registry that is a candidate of the query is strictly nearer; in
    a registry that keeps its objects under their identifiers and owns
    the requester, it is not the requester. *)
Theorem FindNearest_result pThis type maxDist cbotTypes st r :
  FindNearest g_unit FILTER_NONE FILTER_ONLYLANDING FILTER_ONLYFLYING
    FILTER_FRIENDLY FILTER_ENEMY FILTER_NEUTRAL NormAngle RotateAngle
    TestAngle pThis type maxDist cbotTypes st = Some r ->
  let pos := match pThis with
             | Some this => GetPosition this
             | None => Vector_origin
             end in
  let heading := match pThis with
                 | Some this => NormAngle (GetRotationY this)
                 | None => zero
                 end in
  GetActive r = true /\
  gt (DistanceProjected pos (GetPosition r)) (mul maxDist g_unit) = false /\
  lt (DistanceProjected pos (GetPosition r)) sentinel_nearest = true /\
  (forall k c,
     In (k, Some c) (m_objects st) ->
     Radar_candidate g_unit FILTER_NONE FILTER_ONLYLANDING FILTER_ONLYFLYING
       FILTER_FRIENDLY FILTER_ENEMY FILTER_NEUTRAL NormAngle RotateAngle
       TestAngle pThis pos heading type zero (mul PI two) zero maxDist
       FILTER_NONE cbotTypes (k, Some c) = Some c ->
     lt (DistanceProjected pos (GetPosition c))
        (DistanceProjected pos (GetPosition r)) = false) /\
  (registry_ok st -> requester_held pThis st ->
   Some r <> pThis /\ same_object (Some r) pThis = false).
Proof.
  intros Hr pos heading.
  assert (Hradar :
    Radar g_unit FILTER_NONE FILTER_ONLYLANDING FILTER_ONLYFLYING
      FILTER_FRIENDLY FILTER_ENEMY FILTER_NEUTRAL NormAngle RotateAngle
      TestAngle pThis pos heading type zero (mul PI two) zero maxDist
      false FILTER_NONE cbotTypes st = Some r).
  { subst pos heading. unfold FindNearest, Radar_from in Hr.
    destruct pThis as [this|]; exact Hr. }
  clear Hr. pose proof Hradar as Hres.
  apply Radar_result in Hres. destruct Hres as [k [Hin Hc]].
  destruct (candidate_filters _ _ _ _ _ _ _ _ _ _ _ _ _ _ _ _ _ _ _ _ _ _ Hc)
    as (Hthis & _ & Hact & _).
  destruct (candidate_late_filters _ _ _ _ _ _ _ _ _ _ _ _ _ _ _ _ _ _ _ _
              _ _ Hc) as (_ & _ & _ & Hd & _).
  unfold Radar_distance_filter, Radar_maxDist, Radar_d, Radar_iPos in Hd.
  apply negb_true_iff, orb_false_iff in Hd. destruct Hd as [_ Hmax].
  unfold Radar in Hradar.
  destruct (Radar_loop_best_so_far g_unit FILTER_NONE FILTER_ONLYLANDING
              FILTER_ONLYFLYING FILTER_FRIENDLY FILTER_ENEMY FILTER_NEUTRAL
              NormAngle RotateAngle TestAngle pThis pos heading type zero
              (mul PI two) zero maxDist false FILTER_NONE cbotTypes st)
    as (_ & Hsome & Hseen).
  destruct (Hsome r Hradar) as [Hbest Hgood].
  split; [exact Hact|]. split; [exact Hmax|]. split; [exact Hgood|]. split.
  - intros k' c Hin' Hc'.
    specialize (Hseen _ _ Hin' Hc'). rewrite Hbest in Hseen. exact Hseen.
  - intros Hok Hheld. split; [|exact Hthis].
    intros Heq.
    apply (same_object_exact pThis st k (Some r) Hok Hheld Hin) in Heq.
    congruence.
Qed.
End FullCircle.

Lemma Radar_full_circle_witness :
  Radar Sample.g_unit Sample.FILTER_NONE Sample.FILTER_ONLYLANDING
    Sample.FILTER_ONLYFLYING Sample.FILTER_FRIENDLY Sample.FILTER_ENEMY
    Sample.FILTER_NEUTRAL Sample.NormAngle Sample.RotateAngle
    Sample.TestAngle None Vector_origin zero [] zero Sample.full_circle
    zero Sample.hundred false 0 false Scene.st
  = Radar Sample.g_unit Sample.FILTER_NONE Sample.FILTER_ONLYLANDING
      Sample.FILTER_ONLYFLYING Sample.FILTER_FRIENDLY Sample.FILTER_ENEMY
      Sample.FILTER_NEUTRAL (fun a => zero) (fun x y => Sample.hundred)
      (fun a min max => true) None Vector_origin Sample.hundred [] two
      Sample.full_circle zero Sample.hundred false 0 false Scene.st.
Proof.
  apply Radar_full_circle. reflexivity.
Defined.

Lemma FindNearest_result_witness :
  gt (DistanceProjected (GetPosition Scene.requester)
        (GetPosition Scene.friend))
     (mul Sample.hundred Sample.g_unit) = false /\
  Some Scene.friend <> Some Scene.requester.
Proof.
  destruct (FindNearest_result Sample.g_unit Sample.FILTER_NONE
              Sample.FILTER_ONLYLANDING Sample.FILTER_ONLYFLYING
              Sample.FILTER_FRIENDLY Sample.FILTER_ENEMY Sample.FILTER_NEUTRAL
              Sample.NormAngle Sample.RotateAngle Sample.TestAngle
              (Some Scene.requester) [] Sample.hundred false Scene.st
              Scene.friend)
    as (_ & Hmax & _ & _ & Hthis).
  - vm_compute. reflexivity.
  - split; [exact Hmax|]. exact (proj1 (Hthis Scene_ok Scene_held)).
Defined.
